(** * german-ai-agent: the language classifier, the responder and the action

    A shallow embedding of [app/lib/langchain-gemini.ts] (the functions
    [detectLanguage] and [getLanguageResponse]) and of the [action] of
    [app/routes/_index.tsx], with the properties of the specification
    stated and settled against it, and of the state, the handlers and the
    effect of the page component [Index] of the same file.

    JavaScript strings are sequences of UTF-16 code units; the two
    regular expressions of the classifier carry no [u] flag, so they work on
    code units, and the embedding does the same. *)

From Stdlib Require Import List NArith Arith Bool Ascii String Lia.
Import ListNotations.

(** ** JavaScript strings *)

Module JsString.

(** A string value: its UTF-16 code units. *)
Definition jsstring : Type := list N.

Local Open Scope N_scope.

(** The payload (low six bits) of a UTF-8 continuation byte. *)
Definition payload (a : ascii) : N := N.land (N_of_ascii a) 63.

(** UTF-16 encoding of one code point. *)
Definition utf16 (cp : N) : jsstring :=
  if cp <? 65536 then [cp]
  else [55296 + N.shiftr (cp - 65536) 10; 56320 + N.land (cp - 65536) 1023].

(** A literal of the source file, read the way the JavaScript engine reads
    the file: the bytes are decoded as UTF-8 and the code points are stored
    as UTF-16.  Rocq strings hold the bytes of the literal, so a literal is
    written here byte for byte as it stands in the source. *)
Fixpoint js (s : string) : jsstring :=
  match s with
  | EmptyString => []
  | String a s1 =>
      let b := N_of_ascii a in
      if b <? 128 then b :: js s1
      else if b <? 224 then
        match s1 with
        | String a1 s2 => (N.land b 31 * 64 + payload a1) :: js s2
        | _ => [65533]
        end
      else if b <? 240 then
        match s1 with
        | String a1 (String a2 s3) =>
            (N.land b 15 * 4096 + payload a1 * 64 + payload a2) :: js s3
        | _ => [65533]
        end
      else
        match s1 with
        | String a1 (String a2 (String a3 s4)) =>
            utf16 (N.land b 7 * 262144 + payload a1 * 4096
                   + payload a2 * 64 + payload a3) ++ js s4
        | _ => [65533]
        end
  end.

(** [===] on two strings. *)
Definition strictEq (a b : jsstring) : bool :=
  if list_eq_dec N.eq_dec a b then true else false.

(** WhiteSpace and LineTerminator code units, the ones [trim] strips. *)
Definition isWhiteSpace (c : N) : bool :=
  ((9 <=? c) && (c <=? 13)) || (c =? 32) || (c =? 160) || (c =? 5760)
  || ((8192 <=? c) && (c <=? 8202)) || (c =? 8232) || (c =? 8233)
  || (c =? 8239) || (c =? 8287) || (c =? 12288) || (c =? 65279).

Definition blank (c : N) : Prop := isWhiteSpace c = true.

Fixpoint trimStart (s : jsstring) : jsstring :=
  match s with
  | c :: tl => if isWhiteSpace c then trimStart tl else s
  | [] => []
  end.

Definition trimEnd (s : jsstring) : jsstring := rev (trimStart (rev s)).

(** [String.prototype.trim]. *)
Definition trim (s : jsstring) : jsstring := trimEnd (trimStart s).

(** [String.prototype.toUpperCase] on a string of one code unit, for the
    blocks Basic Latin, Latin-1 Supplement and Latin Extended-A (up to
    U+017F), which hold every character of the two word lists.  The result
    can have two code units (U+00DF, U+0149).  Code units above U+017F are
    returned unchanged: none of them has an upper-case form below U+0180,
    so comparisons with the characters of the patterns are not affected. *)
Definition toUpperCase1 (ch : N) : jsstring :=
  if (97 <=? ch) && (ch <=? 122) then [ch - 32]
  else if ch =? 181 then [924]
  else if ch =? 223 then [83; 83]
  else if (224 <=? ch) && (ch <=? 254) && negb (ch =? 247) then [ch - 32]
  else if ch =? 255 then [376]
  else if ch =? 305 then [73]
  else if ch =? 329 then [700; 78]
  else if ch =? 383 then [83]
  else if ((256 <=? ch) && (ch <=? 303)) || ((306 <=? ch) && (ch <=? 311))
          || ((330 <=? ch) && (ch <=? 375)) then
    [if N.odd ch then ch - 1 else ch]
  else if ((313 <=? ch) && (ch <=? 328)) || ((377 <=? ch) && (ch <=? 382)) then
    [if N.even ch then ch - 1 else ch]
  else [ch].

End JsString.
Import JsString.

(** ** Regular expressions

    The fragment of ECMAScript patterns that the source uses: literal
    characters, a character class that lists its members, the assertion
    [\b], sequence, disjunction and a group.  Matching follows the
    continuation-passing matchers of the language definition: a disjunction
    tries its left side with the rest of the pattern as continuation and
    falls back to its right side when that fails. *)

Module RegExp.

Inductive node : Type :=
| Empty
| Char (c : N)
| CharClass (members : list N)
| WordBoundary
| Seq (r1 r2 : node)
| Disj (r1 r2 : node)
| Group (r : node).

(** A regular expression literal [/source/flags]. *)
Record regexp : Type := mkRegExp {
  source : node;
  global : bool;
  ignoreCase : bool
}.

(** The position of a matcher in the input: the code unit just before it
    (none at index 0), the code units from it on, and its index. *)
Record state : Type := mkState {
  before : option N;
  rest : jsstring;
  endIndex : nat
}.

Local Open Scope N_scope.

(** [Canonicalize] for a pattern without the [u] flag. *)
Definition canonicalize (ic : bool) (ch : N) : N :=
  if ic then
    match toUpperCase1 ch with
    | [cu] => if (128 <=? ch) && (cu <? 128) then ch else cu
    | _ => ch
    end
  else ch.

(** [IsWordChar]: the basic word characters [a-zA-Z0-9_]; without the [u]
    flag the [i] flag adds none. *)
Definition wordCharacter (c : N) : bool :=
  ((97 <=? c) && (c <=? 122)) || ((65 <=? c) && (c <=? 90))
  || ((48 <=? c) && (c <=? 57)) || (c =? 95).

Definition isWordChar (c : option N) : bool :=
  match c with
  | Some ch => wordCharacter ch
  | None => false
  end.

Definition charSetMatches (ic : bool) (members : list N) (ch : N) : bool :=
  existsb (fun a => canonicalize ic a =? canonicalize ic ch) members.

Definition step (x : state) (ch : N) (tl : jsstring) : state :=
  mkState (Some ch) tl (S (endIndex x)).

Fixpoint matcher (ic : bool) (r : node) (x : state)
    (k : state -> option state) : option state :=
  match r with
  | Empty => k x
  | Char c =>
      match rest x with
      | ch :: tl => if charSetMatches ic [c] ch then k (step x ch tl) else None
      | [] => None
      end
  | CharClass members =>
      match rest x with
      | ch :: tl =>
          if charSetMatches ic members ch then k (step x ch tl) else None
      | [] => None
      end
  | WordBoundary =>
      if xorb (isWordChar (before x)) (isWordChar (hd_error (rest x)))
      then k x else None
  | Seq r1 r2 => matcher ic r1 x (fun y => matcher ic r2 y k)
  | Disj r1 r2 =>
      match matcher ic r1 x k with
      | Some y => Some y
      | None => matcher ic r2 x k
      end
  | Group r1 => matcher ic r1 x k
  end.

(** One attempt of the whole pattern at a position; the result is the
    number of code units matched. *)
Definition matchAt (re : regexp) (p : option N) (s : jsstring) : option nat :=
  match matcher (ignoreCase re) (source re) (mkState p s 0) Some with
  | Some y => Some (endIndex y)
  | None => None
  end.

(** [RegExpBuiltinExec] from the position reached: the first index from
    which the pattern matches. *)
Fixpoint search (re : regexp) (p : option N) (s : jsstring) : bool :=
  match matchAt re p s with
  | Some _ => true
  | None =>
      match s with
      | [] => false
      | c :: tl => search re (Some c) tl
      end
  end.

(** [RegExp.prototype.test] on a fresh literal ([lastIndex] is 0). *)
Definition test (re : regexp) (text : jsstring) : bool := search re None text.

(** The loop of [RegExp.prototype[Symbol.match]] for a global pattern: the
    successive matches, each search starting where the previous match
    ended (one unit further after an empty match).  [skip] counts the code
    units of the previous match still to be passed. *)
Fixpoint matchesFrom (re : regexp) (p : option N) (s : jsstring)
    (skip : nat) : list jsstring :=
  match skip with
  | S n =>
      match s with
      | [] => []
      | c :: tl => matchesFrom re (Some c) tl n
      end
  | O =>
      match matchAt re p s with
      | Some len =>
          firstn len s ::
            match s with
            | [] => []
            | c :: tl => matchesFrom re (Some c) tl (pred len)
            end
      | None =>
          match s with
          | [] => []
          | c :: tl => matchesFrom re (Some c) tl 0
          end
      end
  end.

(** [String.prototype.match] with a pattern that has the [g] flag (the two
    patterns given to it in the source have it): [null] when nothing
    matches, the array of the matched substrings otherwise. *)
Definition String_match (text : jsstring) (re : regexp)
    : option (list jsstring) :=
  match matchesFrom re None text 0 with
  | [] => None
  | ms => Some ms
  end.

(** Pattern text [c1c2...cn]. *)
Definition literal (w : jsstring) : node :=
  fold_right (fun c r => Seq (Char c) r) Empty w.

(** Splits pattern text at [|]. *)
Fixpoint splitBar (s : string) (cur : string) : list string :=
  match s with
  | EmptyString => [cur]
  | String a s1 =>
      if Ascii.eqb a "|"%char then cur :: splitBar s1 EmptyString
      else splitBar s1 (cur ++ String a EmptyString)%string
  end.

Fixpoint disjunction (alts : list node) : node :=
  match alts with
  | [] => Empty
  | [r] => r
  | r :: more => Disj r (disjunction more)
  end.

(** Pattern text [w1|w2|...|wn], words without special characters. *)
Definition words (s : string) : node :=
  disjunction (map (fun w => literal (js w)) (splitBar s EmptyString)).

End RegExp.

(** ** The language classifier ([app/lib/langchain-gemini.ts])

    The literals below are the ones of the source file, byte for byte.  In
    that file every German letter of a literal stands as two characters, the
    ones its two UTF-8 bytes give when they are read as Windows-1250: U+0102
    followed by U+00A4 (for U+00E4), U+00B6 (for U+00F6), U+013D (for
    U+00FC), U+017A (for U+00DF), U+201E (for U+00C4), U+2013 (for U+00D6)
    or U+015B (for U+00DC).  The engine reads what the file holds, and so
    does the embedding. *)

Module LangchainGemini.

Import RegExp.

(** The alternatives of [germanWords]. *)
Definition germanWordList : string :=
  ("ich|du|er|sie|es|wir|ihr|sie|der|die|das|ein|eine|und|oder|"
    ++ "aber|mit|von|zu|in|auf|fĂĽr|ist|sind|war|waren|haben|hat|"
    ++ "hatte|hatten|werden|wird|wurde|wurden|kĂ¶nnen|kann|konnte|"
    ++ "konnten|mĂĽssen|muss|musste|mussten|sollen|soll|sollte|"
    ++ "sollten|wollen|will|wollte|wollten|dĂĽrfen|darf|durfte|"
    ++ "durften")%string.

(** The alternatives of [englishWords]. *)
Definition englishWordList : string :=
  ("i|you|he|she|it|we|they|the|a|an|and|or|but|with|from|to|in|"
    ++ "on|for|is|are|was|were|have|has|had|will|would|can|could|"
    ++ "should|shall|must|may|might|do|does|did|get|got|go|went|come"
    ++ "|came|see|saw|know|knew|think|thought|take|took|give|gave|"
    ++ "make|made")%string.

(** The members of the class of [hasGermanChars]. *)
Definition germanCharList : string := "Ă¤Ă¶ĂĽĂźĂ„Ă–Ăś"%string.

(** [/\b(...)\b/gi] *)
Definition wordListRegExp (alternatives : string) : regexp :=
  mkRegExp (Seq WordBoundary (Seq (Group (words alternatives)) WordBoundary))
           true true.

Definition germanWords : regexp := wordListRegExp germanWordList.
Definition englishWords : regexp := wordListRegExp englishWordList.

(** [/[...]/], no flag. *)
Definition germanChars : regexp :=
  mkRegExp (CharClass (js germanCharList)) false false.

(** [x || []] on the result of [match]. *)
Definition orEmpty (m : option (list jsstring)) : list jsstring :=
  match m with
  | Some ms => ms
  | None => []
  end.

Definition germanMatches (text : jsstring) : nat :=
  List.length (orEmpty (String_match text germanWords)).

Definition englishMatches (text : jsstring) : nat :=
  List.length (orEmpty (String_match text englishWords)).

Definition hasGermanChars (text : jsstring) : bool := test germanChars text.

Definition detectLanguage (text : jsstring) : jsstring :=
  if hasGermanChars text || (englishMatches text <? germanMatches text)%nat
  then js "de"
  else if (0 <? englishMatches text)%nat then js "en"
  else js "de".

(** The letters the specification calls German-specific: U+00E4, U+00F6,
    U+00FC, U+00DF, U+00C4, U+00D6, U+00DC. *)
Definition germanLetters : jsstring := [228; 246; 252; 223; 196; 214; 220]%N.

(** The text holds one of the German-specific letters. *)
Definition containsGermanLetter (text : jsstring) : bool :=
  existsb (fun c => existsb (N.eqb c) germanLetters) text.

End LangchainGemini.

(** ** Effects: thrown values, the provider, the console

    [getLanguageResponse] and [action] are asynchronous functions that call
    the conversation chain, write to the console and catch what is thrown.
    A computation takes the world and gives a completion (a value, or a
    thrown value) with the world after it. *)

Module Effects.

Inductive completion (E A : Type) : Type :=
| Normal (a : A)
| Throw (e : E).
Arguments Normal {E A} a.
Arguments Throw {E A} e.

Section World.

(** What can be thrown. *)
Variable Err : Type.
(** The state of [conversationChain]: the model client, the prompt and
    the buffer memory with the turns so far. *)
Variable Chain : Type.

(** [chain]: the conversation chain of the loaded module.
    [moduleFailure]: what the top-level code of
    [~/lib/langchain-gemini] threw when it was evaluated (it builds the
    model client, the memory and the chain), if it threw; importing the
    module then rejects with that value.
    [console]: the calls of [console.error], the latest first. *)
Record World : Type := mkWorld {
  chain : Chain;
  moduleFailure : option Err;
  console : list (jsstring * Err)
}.

Definition M (A : Type) : Type := World -> completion Err A * World.

Definition ret {A : Type} (a : A) : M A := fun w => (Normal a, w).

Definition bind {A B : Type} (m : M A) (f : A -> M B) : M B :=
  fun w =>
    match m w with
    | (Normal a, w1) => f a w1
    | (Throw e, w1) => (Throw e, w1)
    end.

(** [try { body } catch (error) { handler }] *)
Definition tryCatch {A : Type} (body : M A) (handler : Err -> M A) : M A :=
  fun w =>
    match body w with
    | (Normal a, w1) => (Normal a, w1)
    | (Throw e, w1) => handler e w1
    end.

(** [console.error(message, error)] *)
Definition consoleError (message : jsstring) (error : Err) : M unit :=
  fun w =>
    (Normal tt,
     mkWorld (chain w) (moduleFailure w) ((message, error) :: console w)).

(** [await import("~/lib/langchain-gemini")] *)
Definition importLangchainGemini : M unit :=
  fun w =>
    match moduleFailure w with
    | Some e => (Throw e, w)
    | None => (Normal tt, w)
    end.

End World.

Arguments chain {Err Chain} w.
Arguments moduleFailure {Err Chain} w.
Arguments console {Err Chain} w.
Arguments mkWorld {Err Chain} chain moduleFailure console.
Arguments ret {Err Chain A} a w.
Arguments bind {Err Chain A B} m f w.
Arguments tryCatch {Err Chain A} body handler w.
Arguments consoleError {Err Chain} message error w.
Arguments importLangchainGemini {Err Chain} w.

Declare Scope effect_scope.
Delimit Scope effect_scope with effect.
Notation "x <- m ;; k" := (bind m (fun x => k))
  (at level 61, m at next level, right associativity) : effect_scope.
Notation "m ;; k" := (bind m (fun _ => k))
  (at level 61, right associativity) : effect_scope.

End Effects.

(** ** The responder ([getLanguageResponse]) *)

Module Responder.

Import Effects LangchainGemini.
Local Open Scope effect_scope.

(** The object [{ text, language, detectedLanguage }]. *)
Record Reply : Type := mkReply {
  text : jsstring;
  language : jsstring;
  detectedLanguage : jsstring
}.

Definition englishApology : jsstring :=
  js "Sorry, I had a small problem. Could you say that again?".

Definition germanApology : jsstring :=
  js ("Entschuldigung, ich hatte ein kleines Problem. "
      ++ "KĂ¶nnen Sie das noch einmal sagen?").

(** The reply of the [catch] block: the apology in the language of the
    input. *)
Definition fallbackReply (userInput : jsstring) : Reply :=
  mkReply (if strictEq (detectLanguage userInput) (js "en")
           then englishApology else germanApology)
          (detectLanguage userInput) (detectLanguage userInput).

Section WithProvider.

Variables Err Chain : Type.

(** [conversationChain.predict({ input })]: the reply of the provider or
    what it throws, and the chain after the call. *)
Variable predict : jsstring -> Chain -> completion Err jsstring * Chain.

Definition chainPredict (input : jsstring) : M Err Chain jsstring :=
  fun w =>
    let (r, c) := predict input (chain w) in
    (r, mkWorld c (moduleFailure w) (console w)).

Definition getLanguageResponse (userInput : jsstring) : M Err Chain Reply :=
  tryCatch
    (let detected := detectLanguage userInput in
     response <- chainPredict userInput ;;
     let cleanResponse := trim response in
     ret (mkReply cleanResponse detected detected))
    (fun error =>
       consoleError (js "Error getting response from Gemini:") error ;;
       let detected := detectLanguage userInput in
       let fallbackText :=
         if strictEq detected (js "en") then englishApology
         else germanApology in
       ret (mkReply fallbackText detected detected)).

End WithProvider.

Arguments chainPredict {Err Chain} predict input w.
Arguments getLanguageResponse {Err Chain} predict userInput w.

End Responder.

(** ** The action of the route ([app/routes/_index.tsx]) *)

Module Route.

Import Effects Responder.
Local Open Scope effect_scope.

(** The form data of a request: its entries in order.  The action reads
    the field as a string ([as string]), so the entries are strings. *)
Record Request : Type := mkRequest {
  formData : list (string * jsstring)
}.

(** [formData.get(name)]: the first entry of that name, or [null]. *)
Fixpoint FormData_get (entries : list (string * jsstring)) (name : string)
    : option jsstring :=
  match entries with
  | [] => None
  | (n, v) :: more => if String.eqb n name then Some v else FormData_get more name
  end.

(** The result of [json(data, init)]: the status and the fields of the
    body in order. *)
Record Response : Type := mkResponse {
  status : N;
  body : list (string * jsstring)
}.

(** [json(data, { status })]; the status is 200 when none is given. *)
Definition json (data : list (string * jsstring)) (init : option N) : Response :=
  mkResponse (match init with Some s => s | None => 200%N end) data.

(** The object [{ text, language, detectedLanguage }] of a reply. *)
Definition replyBody (reply : Reply) : list (string * jsstring) :=
  [("text"%string, text reply);
   ("language"%string, language reply);
   ("detectedLanguage"%string, detectedLanguage reply)].

Definition hasField (name : string) (r : Response) : bool :=
  existsb (fun e => String.eqb (fst e) name) (body r).

Section WithProvider.

Variables Err Chain : Type.
Variable predict : jsstring -> Chain -> completion Err jsstring * Chain.

(** The part of [action] after the check of the transcript. *)
Definition respond (transcript : jsstring) : M Err Chain Response :=
  tryCatch
    (importLangchainGemini ;;
     aiResponse <- getLanguageResponse predict transcript ;;
     ret (json (replyBody aiResponse) None))
    (fun error =>
       consoleError (js "Error processing transcript:") error ;;
       ret (json [("error"%string, js "Processing failed")] (Some 500%N))).

(** [!transcript] holds for [null] and for the empty string. *)
Definition action (request : Request) : M Err Chain Response :=
  match FormData_get (formData request) "transcript" with
  | Some (c :: tl) => respond (c :: tl)
  | _ => ret (json [("error"%string, js "No transcript provided")] (Some 400%N))
  end.

End WithProvider.

Arguments respond {Err Chain} predict transcript w.
Arguments action {Err Chain} predict request w.

End Route.

(** ** Sample providers and requests

    Concrete instances used to run the definitions: the chain state is the
    list of the inputs seen so far, a thrown value is a message. *)

Module Samples.

Import Effects Route.

(** A provider whose generation call always throws. *)
Definition brokenProvider (input : jsstring) (history : list jsstring)
    : completion string jsstring * list jsstring :=
  (Throw "503 Service Unavailable"%string, history).

(** A provider that answers with the input between blanks and a line
    feed. *)
Definition parrotProvider (input : jsstring) (history : list jsstring)
    : completion string jsstring * list jsstring :=
  (Normal (js "  " ++ input ++ js " " ++ [10%N]), input :: history).

(** A fresh process whose module loaded. *)
Definition freshWorld : World string (list jsstring) := mkWorld [] None [].

(** A process in which the top-level code of the module threw. *)
Definition brokenModuleWorld : World string (list jsstring) :=
  mkWorld [] (Some "Please set an API key"%string) [].

Definition inRequest : Request :=
  mkRequest [("transcript"%string, js "in")].

Definition goRequest : Request :=
  mkRequest [("transcript"%string, js "I will go")].

Definition emptyRequest : Request :=
  mkRequest [("transcript"%string, js "")].

Definition otherFieldRequest : Request :=
  mkRequest [("language"%string, js "de")].

End Samples.

(** ** Letters and letter case

    Notions used to state how the two word-list patterns treat a text. *)

Module Letters.

Import RegExp.
Local Open Scope N_scope.

(** [a-zA-Z] *)
Definition isAsciiLetter (c : N) : bool :=
  ((97 <=? c) && (c <=? 122)) || ((65 <=? c) && (c <=? 90)).

(** The code unit with [a-z] replaced by [A-Z]. *)
Definition asciiUpper (c : N) : N :=
  if (97 <=? c) && (c <=? 122) then c - 32 else c.

(** Two strings that the [i] flag does not tell apart: the same length and,
    position by position, the same canonical code unit. *)
Definition sameUpToCase (w m : jsstring) : Prop :=
  Forall2 (fun a ch => canonicalize true a = canonicalize true ch) w m.

(** The words of a pattern text [w1|w2|...|wn]. *)
Definition alternatives (s : string) : list jsstring :=
  map js (splitBar s EmptyString).

(** The word starts with an ASCII letter. *)
Definition startsWithLetter (w : jsstring) : bool :=
  match w with
  | a :: _ => isAsciiLetter a
  | [] => false
  end.

(** No code unit of the text is an ASCII letter. *)
Definition hasNoLetter (text : jsstring) : bool :=
  forallb (fun c => negb (isAsciiLetter c)) text.

(** A matcher position with every code unit replaced through [f]. *)
Definition mapState (f : N -> N) (x : state) : state :=
  mkState (option_map f (before x)) (map f (rest x)) (endIndex x).

(** The state the matcher of a literal reaches after the units [m]. *)
Definition afterUnits (x : state) (m tl : jsstring) : state :=
  mkState (last (map Some m) (before x)) tl (List.length m + endIndex x).

(** [\b] at a position. *)
Definition atBoundary (x : state) : bool :=
  xorb (isWordChar (before x)) (isWordChar (hd_error (rest x))).

End Letters.

(** ** A provider that records its calls

    [traced predict] behaves as [predict] and keeps, beside the state of
    the chain, the inputs it was called with, the latest first. *)

Module Trace.

Import Effects.

Definition traced {Err Chain : Type}
    (predict : jsstring -> Chain -> completion Err jsstring * Chain)
    (input : jsstring) (st : Chain * list jsstring)
    : completion Err jsstring * (Chain * list jsstring) :=
  let (r, c) := predict input (fst st) in (r, (c, input :: snd st)).

End Trace.

(** ** The page ([Index] of [app/routes/_index.tsx])

    The file holds the component twice; this is the first one, which
    follows the language of the conversation.  The component keeps four
    values with [useState]; its handlers and its effect are functions from
    the state to the next state, with what they hand to the browser
    (speech, form submissions, recognition, console, alert) as a list of
    outputs. *)

Module Page.

Import Route.

(** A property read from an object: [undefined] or a string. *)
Definition property (data : list (string * jsstring)) (name : string)
    : option jsstring :=
  FormData_get data name.

(** Truthiness of such a value. *)
Definition truthy (v : option jsstring) : bool :=
  match v with
  | Some (_ :: _) => true
  | _ => false
  end.

(** [v === 'en'] *)
Definition isEn (v : option jsstring) : bool :=
  match v with
  | Some x => strictEq x (js "en")
  | None => false
  end.

(** [v === 'en' ? 'en-US' : 'de-DE'] *)
Definition locale (v : option jsstring) : jsstring :=
  if isEn v then js "en-US" else js "de-DE".

(** An entry of [conversation]. *)
Module Message.
Record t : Type := mk {
  text : option jsstring;
  isUser : bool;
  language : option jsstring
}.
End Message.

(** A [SpeechSynthesisUtterance]: the text given to the constructor and the
    properties the effect sets; [rate] and [pitch] hold the numeric literals
    of the source. *)
Module Utterance.
Record t : Type := mk {
  text : option jsstring;
  lang : jsstring;
  rate : string;
  pitch : string
}.
End Utterance.

(** A recognition object as [startSpeechRecognition] configures it. *)
Module Recognition.
Record t : Type := mk {
  lang : jsstring;
  continuous : bool;
  interimResults : bool;
  maxAlternatives : N
}.
End Recognition.

Record State : Type := mkPage {
  isRecording : bool;
  isProcessing : bool;
  conversation : list Message.t;
  currentLanguage : jsstring
}.

(** The values given to [useState]. *)
Definition initial : State := mkPage false false [] (js "de-DE").

Inductive Output : Type :=
| Speak (utterance : Utterance.t) (delay : N)
| Submit (request : Request)
| StartRecognition (recognition : Recognition.t)
| ConsoleLog (line : jsstring)
| ConsoleError (message payload : jsstring)
| Alert (message : jsstring).

(** The effect on [fetcher.data]; [None] is [undefined]. *)
Definition effect (data : option (list (string * jsstring))) (s : State)
    : State * list Output :=
  match data with
  | Some d =>
      if negb (truthy (property d "error")) then
        let utterance :=
          Utterance.mk (property d "text") (locale (property d "language"))
                       "0.9" "1.0" in
        (mkPage (isRecording s) false
                (conversation s
                 ++ [Message.mk (property d "text") false (property d "language")])
                (if truthy (property d "detectedLanguage")
                 then locale (property d "detectedLanguage")
                 else currentLanguage s),
         [Speak utterance 100])
      else (s, [])
  | None => (s, [])
  end.

(** [supported]: ['webkitSpeechRecognition' in window || 'SpeechRecognition'
    in window]. *)
Definition startSpeechRecognition (supported : bool) (s : State)
    : State * list Output :=
  if supported then
    (s, [StartRecognition (Recognition.mk (currentLanguage s) false false 1)])
  else
    (s, [Alert (js ("Speech recognition is not supported in this browser. "
                    ++ "Please use Chrome or Edge."))]).

(** [recognition.onstart] *)
Definition onstart (s : State) : State * list Output :=
  (mkPage true (isProcessing s) (conversation s) (currentLanguage s), []).

(** [recognition.onresult]; the handler holds the [currentLanguage] of the
    render that created the recognition, the value of its [lang].
    [confidence] is the number as the template literal prints it. *)
Definition onresult (recognition : Recognition.t)
    (transcript confidence : jsstring) (s : State) : State * list Output :=
  (mkPage false true
          (conversation s
           ++ [Message.mk (Some transcript) true
                          (Some (Recognition.lang recognition))])
          (currentLanguage s),
   [ConsoleLog (js "Recognized: " ++ [34%N] ++ transcript ++ [34%N]
                ++ js " (confidence: " ++ confidence ++ js ")");
    Submit (mkRequest [("transcript"%string, transcript)])]).

(** [recognition.onerror] *)
Definition onerror (error : jsstring) (s : State) : State * list Output :=
  (mkPage false (isProcessing s) (conversation s) (currentLanguage s),
   [ConsoleError (js "Speech recognition error:") error]).

Definition toggleLanguage (s : State) : State * list Output :=
  let newLang :=
    if strictEq (currentLanguage s) (js "de-DE") then js "en-US"
    else js "de-DE" in
  (mkPage (isRecording s) (isProcessing s) (conversation s) newLang, []).

(** [disabled={isRecording || isProcessing}] of the microphone button. *)
Definition disabled (s : State) : bool := isRecording s || isProcessing s.

(** The flag of a message bubble. *)
Definition flag (m : Message.t) : jsstring :=
  if isEn (Message.language m) then js "🇺🇸" else js "🇩🇪".

(** One of the two values the page gives [currentLanguage]. *)
Definition isLocale (l : jsstring) : Prop := l = js "de-DE" \/ l = js "en-US".

(** What happens to the page. *)
Inductive event : Type :=
| MicrophoneClick (supported : bool)
| ToggleClick
| RecognitionStart
| RecognitionResult (recognition : Recognition.t)
                    (transcript confidence : jsstring)
| RecognitionError (error : jsstring)
| FetcherData (data : option (list (string * jsstring))).

Definition handle (e : event) (s : State) : State * list Output :=
  match e with
  | MicrophoneClick supported => startSpeechRecognition supported s
  | ToggleClick => toggleLanguage s
  | RecognitionStart => onstart s
  | RecognitionResult r transcript confidence =>
      onresult r transcript confidence s
  | RecognitionError error => onerror error s
  | FetcherData data => effect data s
  end.

(** An event can happen: the disabled button takes no click, and a result
    belongs to a recognition that was started. *)
Definition enabled (s : State) (outputs : list Output) (e : event) : Prop :=
  match e with
  | MicrophoneClick _ => disabled s = false
  | RecognitionResult r _ _ => In (StartRecognition r) outputs
  | _ => True
  end.

(** The states the page reaches from its first render, with the outputs so
    far. *)
Inductive reachable : State -> list Output -> Prop :=
| reach_initial : reachable initial []
| reach_step (s : State) (outputs : list Output) (e : event) :
    reachable s outputs -> enabled s outputs e ->
    reachable (fst (handle e s)) (outputs ++ snd (handle e s)).

(** The state and the outputs after an event, and after a run of events. *)
Definition after (st : State * list Output) (e : event) : State * list Output :=
  (fst (handle e (fst st)), snd st ++ snd (handle e (fst st))).

Definition run (events : list event) : State * list Output :=
  fold_left after events (initial, []).

(** A recognition listening for English, and a run: the page is switched to
    English, the microphone is clicked, the recognition starts and gives a
    result. *)
Definition englishRecognition : Recognition.t :=
  Recognition.mk (js "en-US") false false 1.

Definition sampleEvents : list event :=
  [ToggleClick; MicrophoneClick true; RecognitionStart;
   RecognitionResult englishRecognition (js "I will go") (js "0.93")].

End Page.

(** * Properties *)

Import Effects LangchainGemini Responder Route.

(** ** The character test of the classifier *)

Section CharacterTest.

Import RegExp.

(** An attempt of [/[...]/] at a position looks at one code unit. *)
Lemma matchAt_germanChars (p : option N) (s : jsstring) :
  matchAt germanChars p s =
    match s with
    | ch :: _ => if existsb (fun a => N.eqb a ch) (js germanCharList)
                 then Some 1 else None
    | [] => None
    end.
Proof.
  unfold matchAt. cbn [ignoreCase source germanChars matcher rest].
  destruct s as [|ch tl]; [reflexivity|].
  unfold charSetMatches, canonicalize.
  destruct (existsb _ _); reflexivity.
Qed.

(** [hasGermanChars] is the test that the text holds a member of the class
    of the source. *)
Lemma hasGermanChars_iff (text : jsstring) :
  hasGermanChars text = true <->
  exists c, In c text /\ In c (js germanCharList).
Proof.
  unfold hasGermanChars, test. generalize (@None N).
  induction text as [|ch tl IH]; intros p; cbn [search].
  - rewrite matchAt_germanChars. split; [discriminate|].
    intros (c & [] & _).
  - rewrite matchAt_germanChars.
    destruct (existsb (fun a => N.eqb a ch) (js germanCharList)) eqn:E.
    + split; [intros _|reflexivity].
      apply existsb_exists in E. destruct E as (a & Ha & Hq).
      apply N.eqb_eq in Hq. subst a. exists ch. split; [left; reflexivity|exact Ha].
    + rewrite IH. split.
      * intros (c & Hc & Hm). exists c. split; [right; exact Hc|exact Hm].
      * intros (c & [Hc|Hc] & Hm).
        -- subst c. assert (existsb (fun a => N.eqb a ch) (js germanCharList) = true) as X.
           { apply existsb_exists. exists ch. split; [exact Hm|apply N.eqb_refl]. }
           congruence.
        -- exists c. split; assumption.
Qed.

(** The members of the class, as the engine reads them. *)
Lemma germanCharList_units :
  js germanCharList =
    [258; 164; 258; 182; 258; 317; 258; 378; 258; 8222; 258; 8211; 258; 347]%N.
Proof. vm_compute. reflexivity. Qed.

(** A text that holds a member of the class of the source is German. *)
Lemma class_member_gives_de (text : jsstring) :
  hasGermanChars text = true -> detectLanguage text = js "de".
Proof.
  intros H. unfold detectLanguage. rewrite H. reflexivity.
Qed.

End CharacterTest.

(** ** The branches of the classifier *)

Section Branches.

Variable text : jsstring.

Lemma detectLanguage_en :
  hasGermanChars text = false ->
  (germanMatches text <= englishMatches text)%nat ->
  (0 < englishMatches text)%nat ->
  detectLanguage text = js "en".
Proof.
  intros Hc Hle Hpos. unfold detectLanguage. rewrite Hc.
  destruct (Nat.ltb_spec (englishMatches text) (germanMatches text)); [lia|].
  destruct (Nat.ltb_spec 0 (englishMatches text)); [reflexivity|lia].
Qed.

Lemma detectLanguage_default :
  germanMatches text = 0%nat -> englishMatches text = 0%nat ->
  detectLanguage text = js "de".
Proof.
  intros Hg He. unfold detectLanguage. rewrite Hg, He.
  destruct (hasGermanChars text); reflexivity.
Qed.


End Branches.

(** C1, as the specification has it, fails: the text [in] is one match of
    each word list and holds no special character, and the classifier
    answers ['en'], not ['de']. *)
Lemma tie_in_is_en :
  germanMatches (js "in") = 1%nat /\ englishMatches (js "in") = 1%nat
  /\ containsGermanLetter (js "in") = false
  /\ hasGermanChars (js "in") = false
  /\ detectLanguage (js "in") = js "en"
  /\ detectLanguage (js "in") <> js "de".
Proof. repeat split; try (vm_compute; reflexivity). vm_compute. discriminate. Qed.

(** C1 (amended): for every text whose German match count equals its English
    match count, both nonzero, and on which the character test of the
    classifier is false, [detectLanguage] returns ['en']. *)
Theorem tie_resolves_to_en (text : jsstring) :
  germanMatches text = englishMatches text ->
  englishMatches text <> 0%nat ->
  hasGermanChars text = false ->
  detectLanguage text = js "en".
Proof.
  intros Heq Hnz Hc. apply detectLanguage_en; [exact Hc|lia|lia].
Qed.

Lemma tie_resolves_to_en_witness :
  germanMatches (js "in") = englishMatches (js "in")
  /\ englishMatches (js "in") <> 0%nat
  /\ hasGermanChars (js "in") = false
  /\ detectLanguage (js "in") = js "en".
Proof.
  assert (H1 : germanMatches (js "in") = englishMatches (js "in"))
    by (vm_compute; reflexivity).
  assert (H2 : englishMatches (js "in") <> 0%nat) by (vm_compute; discriminate).
  assert (H3 : hasGermanChars (js "in") = false) by (vm_compute; reflexivity).
  exact (conj H1 (conj H2 (conj H3 (tie_resolves_to_en (js "in") H1 H2 H3)))).
Defined.

(** C4 fails on the code: the text [Was möchte man] holds the letter
    U+00F6, which is not a member of the class the source file lists, and
    with one English match ([Was]) and no German match the classifier
    answers ['en']. *)
Theorem umlaut_text_is_en :
  js "Was möchte man"
    = [87; 97; 115; 32; 109; 246; 99; 104; 116; 101; 32; 109; 97; 110]%N
  /\ containsGermanLetter (js "Was möchte man") = true
  /\ hasGermanChars (js "Was möchte man") = false
  /\ germanMatches (js "Was möchte man") = 0%nat
  /\ englishMatches (js "Was möchte man") = 1%nat
  /\ detectLanguage (js "Was möchte man") = js "en".
Proof. repeat split; vm_compute; reflexivity. Qed.

(** C5 fails on the code: the text [I went – you came] holds none of the
    German letters and has four English matches and no German match; the
    dash U+2013 is a member of the class the source file lists, and the
    classifier answers ['de']. *)
Theorem dash_text_is_de :
  js "I went – you came"
    = [73; 32; 119; 101; 110; 116; 32; 8211; 32; 121; 111; 117; 32; 99; 97;
       109; 101]%N
  /\ containsGermanLetter (js "I went – you came") = false
  /\ hasGermanChars (js "I went – you came") = true
  /\ germanMatches (js "I went – you came") = 0%nat
  /\ englishMatches (js "I went – you came") = 4%nat
  /\ detectLanguage (js "I went – you came") = js "de".
Proof. repeat split; vm_compute; reflexivity. Qed.

(** What the second branch does: more English than German matches and a
    false character test give ['en']. *)
Lemma more_english_is_en (text : jsstring) :
  hasGermanChars text = false ->
  (germanMatches text < englishMatches text)%nat ->
  detectLanguage text = js "en".
Proof.
  intros Hc Hlt. apply detectLanguage_en; [exact Hc|lia|lia].
Qed.

(** C6: for every text with no match in either word list and none of the
    German letters, [detectLanguage] returns ['de'] (the empty string is
    such a text). *)
Theorem no_signal_defaults_to_de (text : jsstring) :
  germanMatches text = 0%nat ->
  englishMatches text = 0%nat ->
  containsGermanLetter text = false ->
  detectLanguage text = js "de".
Proof.
  intros Hg He _. apply detectLanguage_default; assumption.
Qed.

Lemma no_signal_defaults_to_de_witness :
  germanMatches (js "") = 0%nat /\ englishMatches (js "") = 0%nat
  /\ containsGermanLetter (js "") = false
  /\ detectLanguage (js "") = js "de".
Proof.
  split; [vm_compute; reflexivity|].
  split; [vm_compute; reflexivity|].
  split; [vm_compute; reflexivity|].
  apply (no_signal_defaults_to_de (js "")); vm_compute; reflexivity.
Defined.

(** C7: [detectLanguage] returns ['de'] for [Ich gehe heute ins Kino] and
    ['en'] for [I am going to the cinema today]. *)
Theorem spec_examples :
  detectLanguage (js "Ich gehe heute ins Kino") = js "de"
  /\ detectLanguage (js "I am going to the cinema today") = js "en".
Proof. split; vm_compute; reflexivity. Qed.

(** How the two examples are decided: one German match and no English one;
    three English matches and no German one. *)
Lemma example_match_lists :
  RegExp.String_match (js "Ich gehe heute ins Kino") germanWords = Some [js "Ich"]
  /\ RegExp.String_match (js "Ich gehe heute ins Kino") englishWords = None
  /\ RegExp.String_match (js "I am going to the cinema today") englishWords
     = Some [js "I"; js "to"; js "the"]
  /\ RegExp.String_match (js "I am going to the cinema today") germanWords = None.
Proof. repeat split; vm_compute; reflexivity. Qed.

(** The alternatives are tried in order and the pattern backtracks into the
    group: [ein] matches the start of [Eine] but no [\b] follows it, so
    [eine] is taken. *)
Example alternation_backtracks :
  RegExp.String_match (js "Eine und ein") germanWords
  = Some [js "Eine"; js "und"; js "ein"].
Proof. vm_compute. reflexivity. Qed.

(** ** [trim] *)

Section Trim.

Lemma trimStart_split (s : jsstring) :
  exists ws, s = ws ++ trimStart s /\ Forall blank ws.
Proof.
  induction s as [|c tl IH]; cbn [trimStart].
  - exists []. split; [reflexivity|constructor].
  - destruct (isWhiteSpace c) eqn:E.
    + destruct IH as (ws & Hs & Hws). exists (c :: ws). split.
      * cbn. rewrite <- Hs. reflexivity.
      * constructor; assumption.
    + exists []. split; [reflexivity|constructor].
Qed.

Lemma trimStart_head (s : jsstring) (c : N) (tl : jsstring) :
  trimStart s = c :: tl -> isWhiteSpace c = false.
Proof.
  induction s as [|a s' IH]; cbn [trimStart]; [discriminate|].
  destruct (isWhiteSpace a) eqn:E; [exact IH|].
  intros H. injection H as -> _. exact E.
Qed.

Lemma trimEnd_split (s : jsstring) :
  exists ws, s = trimEnd s ++ ws /\ Forall blank ws.
Proof.
  unfold trimEnd. destruct (trimStart_split (rev s)) as (ws & Hs & Hws).
  exists (rev ws). split.
  - rewrite <- rev_app_distr, <- Hs, rev_involutive. reflexivity.
  - apply Forall_rev. exact Hws.
Qed.

Lemma trimEnd_last (s init : jsstring) (c : N) :
  trimEnd s = init ++ [c] -> isWhiteSpace c = false.
Proof.
  unfold trimEnd. intros H.
  apply (f_equal (@rev N)) in H.
  rewrite rev_involutive, rev_app_distr in H. cbn in H.
  exact (trimStart_head _ _ _ H).
Qed.

(** [trim s] is [s] without a prefix and a suffix of white space, and it
    neither starts nor ends with white space. *)
Lemma trim_spec (s : jsstring) :
  (exists pre post,
      s = pre ++ trim s ++ post /\ Forall blank pre /\ Forall blank post)
  /\ (forall c tl, trim s = c :: tl -> isWhiteSpace c = false)
  /\ (forall init c, trim s = init ++ [c] -> isWhiteSpace c = false).
Proof.
  unfold trim.
  destruct (trimStart_split s) as (pre & Hs & Hpre).
  destruct (trimEnd_split (trimStart s)) as (post & Ht & Hpost).
  split; [|split].
  - exists pre, post. split; [|split; assumption].
    rewrite <- Ht. exact Hs.
  - intros c tl H. rewrite H in Ht. cbn in Ht.
    exact (trimStart_head _ _ _ Ht).
  - intros init c H. exact (trimEnd_last _ _ _ H).
Qed.

End Trim.

Lemma strictEq_true (a b : jsstring) : strictEq a b = true <-> a = b.
Proof.
  unfold strictEq. destruct (list_eq_dec N.eq_dec a b); split;
    congruence.
Qed.

(** ** The responder *)

Section ResponderProperties.

Variables Err Chain : Type.
Variable predict : jsstring -> Chain -> completion Err jsstring * Chain.

Implicit Types (userInput response : jsstring) (w : World Err Chain).

Lemma getLanguageResponse_resolved userInput w response c :
  predict userInput (chain w) = (Normal response, c) ->
  getLanguageResponse predict userInput w =
    (Normal (mkReply (trim response) (detectLanguage userInput)
                     (detectLanguage userInput)),
     mkWorld c (moduleFailure w) (console w)).
Proof.
  intros H. unfold getLanguageResponse, tryCatch, bind, chainPredict.
  rewrite H. reflexivity.
Qed.

Lemma getLanguageResponse_rejected userInput w e c :
  predict userInput (chain w) = (Throw e, c) ->
  getLanguageResponse predict userInput w =
    (Normal (fallbackReply userInput),
     mkWorld c (moduleFailure w)
             ((js "Error getting response from Gemini:", e) :: console w)).
Proof.
  intros H. unfold getLanguageResponse, tryCatch, bind, chainPredict.
  rewrite H. reflexivity.
Qed.

(** [getLanguageResponse] completes normally, and leaves the outcome of the
    module's evaluation as it was. *)
Lemma getLanguageResponse_normal userInput w :
  exists reply w',
    getLanguageResponse predict userInput w = (Normal reply, w')
    /\ moduleFailure w' = moduleFailure w
    /\ language reply = detectLanguage userInput
    /\ detectedLanguage reply = detectLanguage userInput.
Proof.
  destruct (predict userInput (chain w)) as [[response|e] c] eqn:H.
  - rewrite (getLanguageResponse_resolved _ _ _ _ H).
    eexists _, _. split; [reflexivity|]. split; [reflexivity|].
    split; reflexivity.
  - rewrite (getLanguageResponse_rejected _ _ _ _ H).
    eexists _, _. split; [reflexivity|]. split; [reflexivity|].
    split; reflexivity.
Qed.

(** C2: when the generation call throws, [getLanguageResponse] completes
    normally and its text is one of the two fixed apologies: the English
    one when the classifier gives ['en'] on the input, the German one
    otherwise. *)
Theorem provider_failure_gives_apology userInput w e c :
  predict userInput (chain w) = (Throw e, c) ->
  exists reply w',
    getLanguageResponse predict userInput w = (Normal reply, w')
    /\ (text reply = englishApology \/ text reply = germanApology)
    /\ (detectLanguage userInput = js "en" -> text reply = englishApology)
    /\ (detectLanguage userInput <> js "en" -> text reply = germanApology).
Proof.
  intros H. rewrite (getLanguageResponse_rejected _ _ _ _ H).
  eexists _, _. split; [reflexivity|]. cbn [text fallbackReply].
  destruct (strictEq (detectLanguage userInput) (js "en")) eqn:E.
  - apply strictEq_true in E.
    split; [left; reflexivity|].
    split; [intros _; reflexivity|intros X; contradiction].
  - assert (detectLanguage userInput <> js "en") as X.
    { intros X. apply strictEq_true in X. congruence. }
    split; [right; reflexivity|].
    split; [intros Y; contradiction|intros _; reflexivity].
Qed.

(** C8: when the generation call succeeds with [response],
    [getLanguageResponse] returns the record whose text is [response]
    without its leading and trailing white space and whose two language
    fields are the tag of the classifier for the input. *)
Theorem provider_success_gives_trimmed_reply userInput w response c :
  predict userInput (chain w) = (Normal response, c) ->
  exists reply w',
    getLanguageResponse predict userInput w = (Normal reply, w')
    /\ text reply = trim response
    /\ language reply = detectLanguage userInput
    /\ detectedLanguage reply = detectLanguage userInput
    /\ (exists pre post,
           response = pre ++ text reply ++ post
           /\ Forall blank pre /\ Forall blank post)
    /\ (forall ch tl, text reply = ch :: tl -> isWhiteSpace ch = false)
    /\ (forall init ch, text reply = init ++ [ch] -> isWhiteSpace ch = false).
Proof.
  intros H. rewrite (getLanguageResponse_resolved _ _ _ _ H).
  eexists _, _. split; [reflexivity|]. cbn [text language detectedLanguage].
  split; [reflexivity|]. split; [reflexivity|]. split; [reflexivity|].
  exact (trim_spec response).
Qed.

(** C9: whatever the provider does, the record returned by
    [getLanguageResponse] has equal [language] and [detectedLanguage]
    fields, both the tag of the classifier for the input. *)
Theorem reply_languages_agree userInput w :
  exists reply w',
    getLanguageResponse predict userInput w = (Normal reply, w')
    /\ language reply = detectedLanguage reply
    /\ language reply = detectLanguage userInput
    /\ detectedLanguage reply = detectLanguage userInput.
Proof.
  destruct (getLanguageResponse_normal userInput w)
    as (reply & w' & Hrun & _ & Hl & Hd).
  exists reply, w'. split; [exact Hrun|].
  split; [congruence|]. split; assumption.
Qed.

End ResponderProperties.

Lemma provider_failure_gives_apology_witness :
  Samples.brokenProvider (js "in") (chain Samples.freshWorld)
    = (Throw "503 Service Unavailable"%string, [])
  /\ exists reply w',
      getLanguageResponse Samples.brokenProvider (js "in") Samples.freshWorld
        = (Normal reply, w')
      /\ (text reply = englishApology \/ text reply = germanApology)
      /\ (detectLanguage (js "in") = js "en" -> text reply = englishApology)
      /\ (detectLanguage (js "in") <> js "en" -> text reply = germanApology).
Proof.
  split; [vm_compute; reflexivity|].
  apply (provider_failure_gives_apology string (list jsstring)
           Samples.brokenProvider (js "in") Samples.freshWorld
           "503 Service Unavailable"%string []).
  vm_compute; reflexivity.
Defined.

Lemma provider_success_gives_trimmed_reply_witness :
  Samples.parrotProvider (js "in") (chain Samples.freshWorld)
    = (Normal [32; 32; 105; 110; 32; 10]%N, [js "in"])
  /\ exists reply w',
      getLanguageResponse Samples.parrotProvider (js "in") Samples.freshWorld
        = (Normal reply, w')
      /\ text reply = trim [32; 32; 105; 110; 32; 10]%N
      /\ language reply = detectLanguage (js "in")
      /\ detectedLanguage reply = detectLanguage (js "in")
      /\ (exists pre post,
             [32; 32; 105; 110; 32; 10]%N = pre ++ text reply ++ post
             /\ Forall blank pre /\ Forall blank post)
      /\ (forall ch tl, text reply = ch :: tl -> isWhiteSpace ch = false)
      /\ (forall init ch, text reply = init ++ [ch] -> isWhiteSpace ch = false).
Proof.
  split; [vm_compute; reflexivity|].
  apply (provider_success_gives_trimmed_reply string (list jsstring)
           Samples.parrotProvider (js "in") Samples.freshWorld
           [32; 32; 105; 110; 32; 10]%N [js "in"]).
  vm_compute; reflexivity.
Defined.

(** The two runs above, evaluated. *)
Example broken_provider_run :
  getLanguageResponse Samples.brokenProvider (js "in") Samples.freshWorld
  = (Normal (mkReply englishApology (js "en") (js "en")),
     mkWorld [] None
       [(js "Error getting response from Gemini:",
         "503 Service Unavailable"%string)]).
Proof. vm_compute. reflexivity. Qed.

Example parrot_provider_run :
  getLanguageResponse Samples.parrotProvider (js "in") Samples.freshWorld
  = (Normal (mkReply (js "in") (js "en") (js "en")),
     mkWorld [js "in"] None []).
Proof. vm_compute. reflexivity. Qed.

(** ** The action *)

Section ActionProperties.

Variables Err Chain : Type.
Variable predict : jsstring -> Chain -> completion Err jsstring * Chain.

Implicit Types (request : Request) (w : World Err Chain) (t : jsstring).

Lemma action_rejects request w :
  FormData_get (formData request) "transcript" = None
  \/ FormData_get (formData request) "transcript" = Some [] ->
  action predict request w =
    (Normal (mkResponse 400 [("error"%string, js "No transcript provided")]), w).
Proof.
  intros [H|H]; unfold action; rewrite H; reflexivity.
Qed.

Lemma action_responds request w t :
  FormData_get (formData request) "transcript" = Some t -> t <> [] ->
  action predict request w = respond predict t w.
Proof.
  intros H Ht. unfold action. rewrite H.
  destruct t as [|c tl]; [contradiction|reflexivity].
Qed.

(** With the module loaded, [respond] is the responder's reply as JSON. *)
Lemma respond_loaded t w :
  moduleFailure w = None ->
  exists reply w',
    getLanguageResponse predict t w = (Normal reply, w')
    /\ respond predict t w = (Normal (mkResponse 200 (replyBody reply)), w').
Proof.
  intros Hm.
  destruct (getLanguageResponse_normal Err Chain predict t w)
    as (reply & w' & Hrun & _).
  exists reply, w'. split; [exact Hrun|].
  unfold respond, tryCatch, bind, importLangchainGemini.
  rewrite Hm, Hrun. reflexivity.
Qed.

(** With the module not loaded, [respond] logs what the import threw and
    answers 500. *)
Lemma respond_broken t w e :
  moduleFailure w = Some e ->
  respond predict t w =
    (Normal (mkResponse 500 [("error"%string, js "Processing failed")]),
     mkWorld (chain w) (moduleFailure w)
             ((js "Error processing transcript:", e) :: console w)).
Proof.
  intros Hm. destruct w as [c mf log]. cbn [moduleFailure] in Hm. subst mf.
  reflexivity.
Qed.

(** C3: a request whose transcript field is missing or the empty string
    gets a 400 response whose body has an [error] field; for a request
    with a non-empty transcript nothing else is checked: the action is the
    part that imports the module and calls the responder on that
    transcript, its response is never the 400 one, and with the module
    loaded it is the responder's reply. *)
Theorem transcript_is_the_only_check request w :
  (FormData_get (formData request) "transcript" = None
   \/ FormData_get (formData request) "transcript" = Some [] ->
   exists resp,
     action predict request w = (Normal resp, w)
     /\ status resp = 400%N /\ hasField "error" resp = true)
  /\ (forall t,
        FormData_get (formData request) "transcript" = Some t -> t <> [] ->
        action predict request w = respond predict t w
        /\ (forall resp w',
              action predict request w = (Normal resp, w') ->
              status resp <> 400%N)
        /\ (moduleFailure w = None ->
            exists reply w',
              getLanguageResponse predict t w = (Normal reply, w')
              /\ action predict request w
                 = (Normal (mkResponse 200 (replyBody reply)), w'))).
Proof.
  split.
  - intros H. rewrite (action_rejects _ _ H).
    eexists. split; [reflexivity|]. split; reflexivity.
  - intros t H Ht. rewrite (action_responds _ _ _ H Ht).
    split; [reflexivity|]. split.
    + intros resp w' Hrun. destruct (moduleFailure w) as [e|] eqn:Hm.
      * rewrite (respond_broken _ _ _ Hm) in Hrun.
        injection Hrun as <- _. cbn [status]. discriminate.
      * destruct (respond_loaded t w Hm) as (reply & w1 & _ & Hr).
        rewrite Hr in Hrun. injection Hrun as <- _. cbn [status]. discriminate.
    + intros Hm. exact (respond_loaded t w Hm).
Qed.


(** The 500 response is the one of a module that did not load. *)
Lemma status_500_iff request w t :
  FormData_get (formData request) "transcript" = Some t -> t <> [] ->
  (exists resp w',
      action predict request w = (Normal resp, w') /\ status resp = 500%N)
  <-> moduleFailure w <> None.
Proof.
  intros H Ht. rewrite (action_responds _ _ _ H Ht). split.
  - intros (resp & w' & Hrun & Hs) Hm.
    destruct (respond_loaded t w Hm) as (reply & w1 & _ & Hr).
    rewrite Hr in Hrun. injection Hrun as <- _. cbn [status] in Hs.
    discriminate.
  - intros Hm. destruct (moduleFailure w) as [e|] eqn:E; [|contradiction].
    rewrite (respond_broken _ _ _ E). eexists _, _.
    split; reflexivity.
Qed.

End ActionProperties.


Lemma transcript_is_the_only_check_witness :
  (exists resp,
      action Samples.parrotProvider Samples.emptyRequest Samples.freshWorld
        = (Normal resp, Samples.freshWorld)
      /\ status resp = 400%N /\ hasField "error" resp = true)
  /\ (exists resp,
      action Samples.parrotProvider Samples.otherFieldRequest Samples.freshWorld
        = (Normal resp, Samples.freshWorld)
      /\ status resp = 400%N /\ hasField "error" resp = true)
  /\ (action Samples.parrotProvider Samples.inRequest Samples.freshWorld
      = respond Samples.parrotProvider (js "in") Samples.freshWorld
      /\ (forall resp w',
            action Samples.parrotProvider Samples.inRequest Samples.freshWorld
              = (Normal resp, w') -> status resp <> 400%N)
      /\ (moduleFailure Samples.freshWorld = None ->
          exists reply w',
            getLanguageResponse Samples.parrotProvider (js "in") Samples.freshWorld
              = (Normal reply, w')
            /\ action Samples.parrotProvider Samples.inRequest Samples.freshWorld
               = (Normal (mkResponse 200 (replyBody reply)), w'))).
Proof.
  split; [|split].
  - apply (proj1 (transcript_is_the_only_check string (list jsstring)
                    Samples.parrotProvider Samples.emptyRequest Samples.freshWorld)).
    right. vm_compute. reflexivity.
  - apply (proj1 (transcript_is_the_only_check string (list jsstring)
                    Samples.parrotProvider Samples.otherFieldRequest
                    Samples.freshWorld)).
    left. vm_compute. reflexivity.
  - apply (proj2 (transcript_is_the_only_check string (list jsstring)
                    Samples.parrotProvider Samples.inRequest Samples.freshWorld)
                 (js "in")).
    + vm_compute. reflexivity.
    + vm_compute. discriminate.
Defined.


(** A request with a transcript and a provider whose generation call throws:
    the apology comes back with status 200. *)
Example broken_provider_action_run :
  action Samples.brokenProvider Samples.inRequest Samples.freshWorld
  = (Normal (mkResponse 200 [("text"%string, englishApology);
                             ("language"%string, js "en");
                             ("detectedLanguage"%string, js "en")]),
     mkWorld [] None
       [(js "Error getting response from Gemini:",
         "503 Service Unavailable"%string)]).
Proof. vm_compute. reflexivity. Qed.

(** * Further properties of the code *)

(** ** The word-list patterns *)

Section WordLists.

Import RegExp Letters.
Local Open Scope N_scope.

(** Case analysis on the first comparison of the goal, closing the cases
    that the hypotheses exclude. *)
Ltac split_test :=
  match goal with
  | |- context [N.leb ?a ?b] => destruct (N.leb_spec a b)
  | |- context [N.ltb ?a ?b] => destruct (N.ltb_spec a b)
  | |- context [N.eqb ?a ?b] => destruct (N.eqb_spec a b)
  end; cbn [andb orb negb]; try lia.

Ltac split_tests := repeat split_test; try reflexivity; try lia.

Lemma toUpperCase1_other (ch : N) :
  ch < 97 \/ 122 < ch < 181 -> toUpperCase1 ch = [ch].
Proof.
  intros H. unfold toUpperCase1. split_tests.
Qed.

Lemma toUpperCase1_lower (ch : N) :
  97 <= ch <= 122 -> toUpperCase1 ch = [ch - 32].
Proof.
  intros H. unfold toUpperCase1. split_tests.
Qed.

(** On ASCII the [i] flag folds [a-z] onto [A-Z] and nothing else. *)
Lemma canonicalize_ascii (ch : N) :
  ch < 128 -> canonicalize true ch = asciiUpper ch.
Proof.
  intros H. unfold canonicalize, asciiUpper.
  destruct (N.leb_spec 97 ch); destruct (N.leb_spec ch 122); cbn [andb].
  - rewrite toUpperCase1_lower by lia. split_tests.
  - rewrite toUpperCase1_other by lia. split_tests.
  - rewrite toUpperCase1_other by lia. split_tests.
  - rewrite toUpperCase1_other by lia. split_tests.
Qed.

(** A code unit outside ASCII is never folded into ASCII. *)
Lemma canonicalize_nonascii (ch : N) :
  128 <= ch -> 128 <= canonicalize true ch.
Proof.
  intros H. unfold canonicalize.
  destruct (toUpperCase1 ch) as [|cu [|]]; try assumption.
  split_tests.
Qed.

Lemma canonicalize_asciiUpper (c : N) :
  canonicalize true (asciiUpper c) = canonicalize true c.
Proof.
  destruct (N.lt_ge_cases c 128) as [H|H].
  - rewrite (canonicalize_ascii c H).
    assert (asciiUpper c < 128) as H1.
    { unfold asciiUpper. split_tests. }
    rewrite (canonicalize_ascii _ H1).
    unfold asciiUpper.
    destruct (N.leb_spec 97 c); destruct (N.leb_spec c 122); cbn [andb];
      split_tests.
  - unfold asciiUpper at 1. split_tests.
Qed.

Lemma wordCharacter_asciiUpper (c : N) :
  wordCharacter (asciiUpper c) = wordCharacter c.
Proof.
  unfold asciiUpper.
  destruct (N.leb_spec 97 c); destruct (N.leb_spec c 122); cbn [andb];
    try reflexivity.
  unfold wordCharacter. split_tests.
Qed.

(** A code unit that the [i] flag identifies with an ASCII letter is an ASCII
    letter. *)
Lemma canonical_letter (a ch : N) :
  isAsciiLetter a = true ->
  canonicalize true a = canonicalize true ch ->
  isAsciiLetter ch = true.
Proof.
  intros Ha Heq.
  assert (a < 128 /\ 65 <= asciiUpper a <= 90) as [Ha1 Ha2].
  { revert Ha. unfold isAsciiLetter, asciiUpper.
    repeat split_test; intros Ha; try discriminate Ha; lia. }
  rewrite (canonicalize_ascii a Ha1) in Heq.
  destruct (N.lt_ge_cases ch 128) as [H|H].
  - rewrite (canonicalize_ascii ch H) in Heq. rewrite Heq in Ha2.
    revert Ha2. unfold isAsciiLetter, asciiUpper.
    repeat split_test; intros Ha2; try reflexivity; lia.
  - pose proof (canonicalize_nonascii ch H). lia.
Qed.


(** *** What a match of a word-list pattern is *)

Lemma afterUnits_nil (x : state) : afterUnits x [] (rest x) = x.
Proof. destruct x. reflexivity. Qed.

Lemma firstn_incl {A : Type} (n : nat) (l : list A) : incl (firstn n l) l.
Proof.
  intros a Ha. rewrite <- (firstn_skipn n l). apply in_or_app. left. exact Ha.
Qed.

Lemma last_cons_default {A : Type} (a : A) (l : list A) (d d' : A) :
  last (a :: l) d = last (a :: l) d'.
Proof.
  revert a. induction l as [|b l IH]; intros a; [reflexivity|].
  change (last (b :: l) d = last (b :: l) d'). apply IH.
Qed.

Lemma afterUnits_cons (x : state) (ch : N) (m tl tl' : jsstring) :
  afterUnits (step x ch tl') m tl = afterUnits x (ch :: m) tl.
Proof.
  unfold afterUnits, step. cbn [before endIndex List.length map].
  f_equal.
  - destruct m as [|c m']; [reflexivity|].
    cbn [map]. change (last (Some ch :: Some c :: map Some m') (before x))
      with (last (Some c :: map Some m') (before x)).
    apply last_cons_default.
  - lia.
Qed.

(** The matcher of the pattern text [c1...cn] consumes [n] code units that
    equal the text up to case, and goes on from there. *)
Lemma matcher_literal (w : jsstring) (x : state)
    (k : state -> option state) (y : state) :
  matcher true (literal w) x k = Some y ->
  exists m tl,
    rest x = m ++ tl /\ sameUpToCase w m /\ k (afterUnits x m tl) = Some y.
Proof.
  revert x. induction w as [|a w IH]; intros x H.
  - exists [], (rest x). split; [reflexivity|]. split; [constructor|].
    rewrite afterUnits_nil. exact H.
  - cbn [literal fold_right matcher] in H.
    destruct (rest x) as [|ch tl'] eqn:Hr; [discriminate|].
    destruct (charSetMatches true [a] ch) eqn:Hc; [|discriminate].
    apply IH in H. destruct H as (m & tl & Hs & Hw & Hk).
    cbn [rest step] in Hs. subst tl'.
    exists (ch :: m), tl. split; [reflexivity|]. split.
    + constructor; [|exact Hw].
      unfold charSetMatches in Hc. cbn [existsb] in Hc.
      rewrite orb_false_r in Hc. apply N.eqb_eq in Hc. exact Hc.
    + rewrite <- (afterUnits_cons x ch m tl (m ++ tl)). exact Hk.
Qed.

(** A disjunction matches through one of its alternatives. *)
Lemma matcher_disjunction (rs : list node) (x : state)
    (k : state -> option state) (y : state) :
  rs <> [] ->
  matcher true (disjunction rs) x k = Some y ->
  exists r, In r rs /\ matcher true r x k = Some y.
Proof.
  induction rs as [|r rs IH]; intros Hne H; [contradiction|].
  destruct rs as [|r' rs'].
  - exists r. split; [left; reflexivity|exact H].
  - change (disjunction (r :: r' :: rs')) with (Disj r (disjunction (r' :: rs'))) in H.
    cbn [matcher] in H.
    destruct (matcher true r x k) eqn:E.
    + exists r. split; [left; reflexivity|]. rewrite E. exact H.
    + destruct (IH ltac:(discriminate) H) as (r0 & Hin & Hr).
      exists r0. split; [right; exact Hin|exact Hr].
Qed.

Lemma splitBar_not_nil (s cur : string) : splitBar s cur <> [].
Proof.
  revert cur. induction s as [|a s IH]; intros cur; cbn [splitBar].
  - discriminate.
  - destruct (Ascii.eqb a "|"%char); [discriminate|apply IH].
Qed.

(** One attempt of [/\b(w1|...|wn)\b/gi]: the units matched equal one of the
    words up to case, and [\b] holds before and after them. *)
Lemma matchAt_wordList (alts : string) (p : option N) (s : jsstring) (n : nat) :
  matchAt (wordListRegExp alts) p s = Some n ->
  exists w m tl,
    In w (alternatives alts) /\ s = m ++ tl /\ List.length m = n
    /\ sameUpToCase w m
    /\ atBoundary (mkState p s 0) = true
    /\ atBoundary (afterUnits (mkState p s 0) m tl) = true.
Proof.
  unfold matchAt, wordListRegExp.
  cbn [ignoreCase source matcher].
  fold (atBoundary (mkState p s 0)).
  destruct (atBoundary (mkState p s 0)) eqn:Hb; [|discriminate].
  destruct (matcher true (words alts) (mkState p s 0) _) as [y|] eqn:H;
    [|discriminate].
  intros Hn. injection Hn as Hn.
  unfold words in H.
  apply matcher_disjunction in H.
  2:{ intros E. apply map_eq_nil in E. exact (splitBar_not_nil _ _ E). }
  destruct H as (r & Hin & H).
  apply in_map_iff in Hin. destruct Hin as (ws & <- & Hws).
  apply matcher_literal in H. destruct H as (m & tl & Hs & Hw & Hk).
  cbn [rest] in Hs.
  fold (atBoundary (afterUnits (mkState p s 0) m tl)) in Hk.
  destruct (atBoundary (afterUnits (mkState p s 0) m tl)) eqn:Ha;
    [|discriminate].
  injection Hk as <-. cbn [afterUnits endIndex] in Hn.
  exists (js ws), m, tl. split.
  { unfold alternatives. apply in_map. exact Hws. }
  split; [exact Hs|]. split; [lia|]. split; [exact Hw|].
  split; [reflexivity|exact Ha].
Qed.

(** The matched substrings of a word-list pattern: each is made of code
    units of the text and equals one of the words up to case. *)
Lemma matchesFrom_wordList (alts : string) (s : jsstring) :
  forall (p : option N) (skip : nat),
    Forall (fun m => incl m s
                     /\ exists w, In w (alternatives alts) /\ sameUpToCase w m)
           (matchesFrom (wordListRegExp alts) p s skip).
Proof.
  induction s as [|c tl IH]; intros p skip.
  - destruct skip; cbn [matchesFrom]; [|constructor].
    destruct (matchAt (wordListRegExp alts) p []) as [n|] eqn:E; [|constructor].
    constructor; [|constructor].
    apply matchAt_wordList in E.
    destruct E as (w & m & tl & Hin & Hs & Hn & Hw & _).
    split; [apply firstn_incl|].
    exists w. split; [exact Hin|].
    destruct m; [|discriminate]. destruct n; [|discriminate]. exact Hw.
  - assert (forall q k,
               Forall (fun m => incl m (c :: tl)
                     /\ exists w, In w (alternatives alts) /\ sameUpToCase w m)
                 (matchesFrom (wordListRegExp alts) q tl k)) as IH'.
    { intros q k. eapply Forall_impl; [|apply IH].
      intros m (Hi & Hw). split; [|exact Hw].
      intros a Ha. right. apply Hi. exact Ha. }
    destruct skip; cbn [matchesFrom]; [|apply IH'].
    destruct (matchAt (wordListRegExp alts) p (c :: tl)) as [n|] eqn:E;
      [|apply IH'].
    constructor; [|apply IH'].
    apply matchAt_wordList in E.
    destruct E as (w & m & tl' & Hin & Hs & Hn & Hw & _).
    split; [apply firstn_incl|].
    exists w. split; [exact Hin|].
    rewrite Hs, <- Hn, firstn_app, Nat.sub_diag, firstn_all. cbn [firstn].
    rewrite app_nil_r. exact Hw.
Qed.

Lemma length_String_match (text : jsstring) (re : regexp) :
  List.length (orEmpty (String_match text re))
  = List.length (matchesFrom re None text 0).
Proof.
  unfold String_match. destruct (matchesFrom re None text 0); reflexivity.
Qed.

Lemma orEmpty_String_match (text : jsstring) (re : regexp) :
  orEmpty (String_match text re) = matchesFrom re None text 0.
Proof.
  unfold String_match. destruct (matchesFrom re None text 0); reflexivity.
Qed.


(** *** Texts without letters *)

Lemma no_letter_no_match (alts : string) (text : jsstring) :
  forallb startsWithLetter (alternatives alts) = true ->
  (forall c, In c text -> isAsciiLetter c = false) ->
  forall p skip, matchesFrom (wordListRegExp alts) p text skip = [].
Proof.
  intros Hall Htext p skip.
  pose proof (matchesFrom_wordList alts text p skip) as HF.
  destruct (matchesFrom (wordListRegExp alts) p text skip) as [|m ms];
    [reflexivity|].
  exfalso. apply Forall_inv in HF. destruct HF as (Hi & w & Hin & Hw).
  rewrite forallb_forall in Hall. specialize (Hall w Hin).
  destruct Hw as [|a ch w' m' Hc _]; [discriminate|].
  cbn [startsWithLetter] in Hall.
  pose proof (canonical_letter a ch Hall Hc) as Hl.
  rewrite (Htext ch) in Hl; [discriminate|].
  apply Hi. left. reflexivity.
Qed.

Lemma wordLists_start_with_letters :
  forallb startsWithLetter (alternatives germanWordList) = true
  /\ forallb startsWithLetter (alternatives englishWordList) = true.
Proof. split; vm_compute; reflexivity. Qed.

(** *** Letter case *)

Lemma atBoundary_mapState (x : state) :
  atBoundary (mapState asciiUpper x) = atBoundary x.
Proof.
  unfold atBoundary, mapState. cbn [before rest].
  f_equal.
  - destruct (before x); [apply wordCharacter_asciiUpper|reflexivity].
  - destruct (rest x); [reflexivity|apply wordCharacter_asciiUpper].
Qed.

Lemma charSetMatches_asciiUpper (members : list N) (ch : N) :
  charSetMatches true members (asciiUpper ch) = charSetMatches true members ch.
Proof.
  unfold charSetMatches. rewrite canonicalize_asciiUpper. reflexivity.
Qed.

(** The matcher of a pattern with the [i] flag does on the upper-cased text
    what it does on the text. *)
Lemma matcher_mapState (r : node) :
  forall (x : state) (k k' : state -> option state),
    (forall z, k' (mapState asciiUpper z) = option_map (mapState asciiUpper) (k z)) ->
    matcher true r (mapState asciiUpper x) k'
    = option_map (mapState asciiUpper) (matcher true r x k).
Proof.
  induction r as [|c|members| |r1 IH1 r2 IH2|r1 IH1 r2 IH2|r1 IH1];
    intros x k k' Hk; cbn [matcher].
  - apply Hk.
  - cbn [mapState rest]. destruct (rest x) as [|ch tl]; [reflexivity|].
    cbn [map]. rewrite charSetMatches_asciiUpper.
    destruct (charSetMatches true [c] ch); [|reflexivity].
    rewrite <- Hk. reflexivity.
  - cbn [mapState rest]. destruct (rest x) as [|ch tl]; [reflexivity|].
    cbn [map]. rewrite charSetMatches_asciiUpper.
    destruct (charSetMatches true members ch); [|reflexivity].
    rewrite <- Hk. reflexivity.
  - fold (atBoundary (mapState asciiUpper x)). fold (atBoundary x).
    rewrite atBoundary_mapState.
    destruct (atBoundary x); [apply Hk|reflexivity].
  - apply IH1. intros z. apply IH2. exact Hk.
  - rewrite (IH1 x k k' Hk), (IH2 x k k' Hk).
    destruct (matcher true r1 x k); reflexivity.
  - apply IH1. exact Hk.
Qed.

Lemma matchAt_asciiUpper (re : regexp) (p : option N) (s : jsstring) :
  ignoreCase re = true ->
  matchAt re (option_map asciiUpper p) (map asciiUpper s) = matchAt re p s.
Proof.
  intros Hi. unfold matchAt. rewrite Hi.
  change (mkState (option_map asciiUpper p) (map asciiUpper s) 0)
    with (mapState asciiUpper (mkState p s 0)).
  rewrite (matcher_mapState (source re) (mkState p s 0) Some Some)
    by reflexivity.
  destruct (matcher true (source re) (mkState p s 0) Some); reflexivity.
Qed.

Lemma matchesFrom_asciiUpper (re : regexp) (s : jsstring) :
  ignoreCase re = true ->
  forall p skip,
    matchesFrom re (option_map asciiUpper p) (map asciiUpper s) skip
    = map (map asciiUpper) (matchesFrom re p s skip).
Proof.
  intros Hi. induction s as [|c tl IH]; intros p skip.
  - destruct skip; cbn [matchesFrom map]; [|reflexivity].
    pose proof (matchAt_asciiUpper re p [] Hi) as E. cbn [map] in E.
    rewrite E.
    destruct (matchAt re p []); [|reflexivity].
    cbn [map]. rewrite firstn_nil. reflexivity.
  - destruct skip; cbn [matchesFrom map].
    + change (asciiUpper c :: map asciiUpper tl) with (map asciiUpper (c :: tl)).
      rewrite (matchAt_asciiUpper re p (c :: tl) Hi).
      destruct (matchAt re p (c :: tl)) as [len|].
      * cbn [map]. rewrite (IH (Some c)).
        change (asciiUpper c :: map asciiUpper tl) with (map asciiUpper (c :: tl)).
        rewrite firstn_map. reflexivity.
      * apply (IH (Some c)).
    + apply (IH (Some c)).
Qed.

Lemma germanMatches_asciiUpper (text : jsstring) :
  germanMatches (map asciiUpper text) = germanMatches text.
Proof.
  unfold germanMatches. rewrite !length_String_match.
  pose proof (matchesFrom_asciiUpper germanWords text eq_refl None 0) as E.
  cbn [option_map] in E. rewrite E. apply length_map.
Qed.

Lemma englishMatches_asciiUpper (text : jsstring) :
  englishMatches (map asciiUpper text) = englishMatches text.
Proof.
  unfold englishMatches. rewrite !length_String_match.
  pose proof (matchesFrom_asciiUpper englishWords text eq_refl None 0) as E.
  cbn [option_map] in E. rewrite E. apply length_map.
Qed.

Lemma class_member_not_letter (c : N) :
  In c (js germanCharList) -> (122 < c)%N.
Proof.
  rewrite germanCharList_units. cbn [In].
  intros H. repeat (destruct H as [H|H]; [lia|]). contradiction.
Qed.

Lemma hasGermanChars_asciiUpper (text : jsstring) :
  hasGermanChars (map asciiUpper text) = hasGermanChars text.
Proof.
  apply eq_true_iff_eq. rewrite !hasGermanChars_iff. split.
  - intros (c' & Hin & Hm). apply in_map_iff in Hin.
    destruct Hin as (c & <- & Hc). exists c. split; [exact Hc|].
    pose proof (class_member_not_letter _ Hm) as Hgt.
    revert Hm Hgt. unfold asciiUpper. do 2 split_test; intros; try lia.
    all: assumption.
  - intros (c & Hc & Hm). exists c. split; [|exact Hm].
    pose proof (class_member_not_letter _ Hm) as Hgt.
    apply in_map_iff. exists c. split; [|exact Hc].
    unfold asciiUpper. split_tests.
Qed.


(** *** Results on the classifier *)

(** X1: [detectLanguage] returns ['en'] exactly when the character test is
    false, there is at least one English match and the German matches do not
    outnumber the English ones; in every other case it returns ['de']. *)
Theorem detectLanguage_decision (text : jsstring) :
  (detectLanguage text = js "en" <->
   hasGermanChars text = false
   /\ (germanMatches text <= englishMatches text)%nat
   /\ (0 < englishMatches text)%nat)
  /\ (detectLanguage text = js "de" <->
      hasGermanChars text = true
      \/ (englishMatches text < germanMatches text)%nat
      \/ englishMatches text = 0%nat).
Proof.
  assert (Hne : js "de" <> js "en") by (vm_compute; discriminate).
  unfold detectLanguage.
  destruct (hasGermanChars text); cbn [orb].
  - split; split.
    + intros H. congruence.
    + intros (H & _). discriminate.
    + intros _. left. reflexivity.
    + intros _. reflexivity.
  - destruct (Nat.ltb_spec (englishMatches text) (germanMatches text)).
    + split; split.
      * intros H'. congruence.
      * intros (_ & H' & _). lia.
      * intros _. right. left. assumption.
      * intros _. reflexivity.
    + destruct (Nat.ltb_spec 0 (englishMatches text)).
      * split; split.
        -- intros _. split; [reflexivity|]. split; assumption.
        -- intros _. reflexivity.
        -- intros H'. symmetry in H'. contradiction.
        -- intros [H'|[H'|H']]; [discriminate|lia|lia].
      * split; split.
        -- intros H'. congruence.
        -- intros (_ & _ & H'). lia.
        -- intros _. right. right. lia.
        -- intros _. reflexivity.
Qed.

(** X2: the character test of the classifier is true exactly for the texts
    that hold one of the code units U+0102, U+00A4, U+00B6, U+013D, U+017A,
    U+201E, U+2013, U+015B, the members of the class as the file has it. *)
Theorem hasGermanChars_members (text : jsstring) :
  hasGermanChars text = true <->
  exists c, In c text /\ In c [258; 164; 182; 317; 378; 8222; 8211; 347].
Proof.
  rewrite hasGermanChars_iff, germanCharList_units.
  split; intros (c & Hc & Hm); exists c; (split; [exact Hc|]);
    cbn [In] in Hm |- *; intuition auto.
Qed.

(** X3: every substring that [match] returns for one of the two word-list
    patterns is made of code units of the text and equals a word of the
    list up to letter case. *)
Theorem matches_are_listed_words (text : jsstring) :
  Forall (fun m => incl m text
                   /\ exists w, In w (alternatives germanWordList)
                                /\ sameUpToCase w m)
         (orEmpty (String_match text germanWords))
  /\ Forall (fun m => incl m text
                      /\ exists w, In w (alternatives englishWordList)
                                   /\ sameUpToCase w m)
            (orEmpty (String_match text englishWords)).
Proof.
  rewrite !orEmpty_String_match. split; apply matchesFrom_wordList.
Qed.

(** X4: a text without any ASCII letter has no match in either word list,
    so it is classified ['de']. *)
Theorem letterless_text_is_de (text : jsstring) :
  hasNoLetter text = true ->
  germanMatches text = 0%nat /\ englishMatches text = 0%nat
  /\ detectLanguage text = js "de".
Proof.
  intros H.
  assert (Ht : forall c, In c text -> isAsciiLetter c = false).
  { intros c Hc. unfold hasNoLetter in H. rewrite forallb_forall in H.
    apply negb_true_iff. exact (H c Hc). }
  destruct wordLists_start_with_letters as [Hg He].
  assert (G : germanMatches text = 0%nat).
  { unfold germanMatches. rewrite length_String_match.
    unfold germanWords. rewrite (no_letter_no_match _ _ Hg Ht). reflexivity. }
  assert (E : englishMatches text = 0%nat).
  { unfold englishMatches. rewrite length_String_match.
    unfold englishWords. rewrite (no_letter_no_match _ _ He Ht). reflexivity. }
  split; [exact G|]. split; [exact E|].
  apply detectLanguage_default; assumption.
Qed.

Lemma detectLanguage_asciiUpper (text : jsstring) :
  detectLanguage (map asciiUpper text) = detectLanguage text.
Proof.
  pose proof (hasGermanChars_asciiUpper text) as Hc.
  pose proof (germanMatches_asciiUpper text) as Hg.
  pose proof (englishMatches_asciiUpper text) as He.
  unfold detectLanguage. rewrite Hc, Hg, He. reflexivity.
Qed.

(** X5: two texts that differ only in the case of ASCII letters get the same
    tag. *)
Theorem letter_case_does_not_matter (t1 t2 : jsstring) :
  map asciiUpper t1 = map asciiUpper t2 ->
  detectLanguage t1 = detectLanguage t2.
Proof.
  intros H. rewrite <- (detectLanguage_asciiUpper t1), H.
  apply detectLanguage_asciiUpper.
Qed.

End WordLists.

Lemma letterless_text_is_de_witness :
  Letters.hasNoLetter (js "Привет, мир 2024!") = true
  /\ germanMatches (js "Привет, мир 2024!") = 0%nat
  /\ englishMatches (js "Привет, мир 2024!") = 0%nat
  /\ detectLanguage (js "Привет, мир 2024!") = js "de".
Proof.
  assert (H : Letters.hasNoLetter (js "Привет, мир 2024!") = true)
    by (vm_compute; reflexivity).
  exact (conj H (letterless_text_is_de _ H)).
Defined.

Lemma letter_case_does_not_matter_witness :
  map Letters.asciiUpper (js "i WILL go") = map Letters.asciiUpper (js "I will GO")
  /\ detectLanguage (js "i WILL go") = detectLanguage (js "I will GO").
Proof.
  assert (H : map Letters.asciiUpper (js "i WILL go")
              = map Letters.asciiUpper (js "I will GO"))
    by (vm_compute; reflexivity).
  exact (conj H (letter_case_does_not_matter _ _ H)).
Defined.

(** ** The responder and the action, once more *)

Section CallsAndLogs.

Import Trace.

Variables Err Chain : Type.
Variable predict : jsstring -> Chain -> completion Err jsstring * Chain.

(** A run of the responder on a traced provider. *)
Lemma traced_run (userInput : jsstring) (w : World Err (Chain * list jsstring)) :
  exists reply w',
    getLanguageResponse (traced predict) userInput w = (Normal reply, w')
    /\ snd (chain w') = userInput :: snd (chain w)
    /\ fst (chain w') = snd (predict userInput (fst (chain w))).
Proof.
  destruct (predict userInput (fst (chain w))) as [[response|e] c] eqn:H.
  - assert (traced predict userInput (chain w)
            = (Normal response, (c, userInput :: snd (chain w)))) as Ht.
    { unfold traced. rewrite H. reflexivity. }
    rewrite (getLanguageResponse_resolved _ _ _ _ _ _ _ Ht).
    eexists _, _. split; [reflexivity|]. split; reflexivity.
  - assert (traced predict userInput (chain w)
            = (Throw e, (c, userInput :: snd (chain w)))) as Ht.
    { unfold traced. rewrite H. reflexivity. }
    rewrite (getLanguageResponse_rejected _ _ _ _ _ _ _ Ht).
    eexists _, _. split; [reflexivity|]. split; reflexivity.
Qed.

(** X6: [getLanguageResponse] calls the provider once, with the input as it
    got it, whether the call returns or throws, and keeps the state the call
    left (there is no second attempt). *)
Theorem responder_calls_provider_once
    (userInput : jsstring) (w : World Err (Chain * list jsstring)) :
  exists reply w',
    getLanguageResponse (traced predict) userInput w = (Normal reply, w')
    /\ snd (chain w') = userInput :: snd (chain w)
    /\ fst (chain w') = snd (predict userInput (fst (chain w))).
Proof. exact (traced_run userInput w). Qed.

(** X7: [getLanguageResponse] writes to the console only when the provider
    throws, and then one entry holding what was thrown; the outcome of the
    module's evaluation is left as it was. *)
Theorem responder_logs_only_failures
    (userInput : jsstring) (w : World Err Chain) :
  exists reply w',
    getLanguageResponse predict userInput w = (Normal reply, w')
    /\ moduleFailure w' = moduleFailure w
    /\ chain w' = snd (predict userInput (chain w))
    /\ console w'
       = match fst (predict userInput (chain w)) with
         | Normal _ => console w
         | Throw e =>
             (js "Error getting response from Gemini:", e) :: console w
         end.
Proof.
  destruct (predict userInput (chain w)) as [[response|e] c] eqn:H.
  - rewrite (getLanguageResponse_resolved _ _ _ _ _ _ _ H).
    eexists _, _. split; [reflexivity|]. split; [reflexivity|].
    split; reflexivity.
  - rewrite (getLanguageResponse_rejected _ _ _ _ _ _ _ H).
    eexists _, _. split; [reflexivity|]. split; [reflexivity|].
    split; reflexivity.
Qed.

(** X8: for every request the action completes normally; its status is
    200, 400 or 500, the body has an [error] field exactly when the status
    is not 200, and a 200 body has the fields [text], [language] and
    [detectedLanguage]. *)
Theorem action_always_answers (request : Request) (w : World Err Chain) :
  exists resp w',
    action predict request w = (Normal resp, w')
    /\ (status resp = 200 \/ status resp = 400 \/ status resp = 500)%N
    /\ hasField "error" resp = negb (status resp =? 200)%N
    /\ (status resp = 200%N ->
        map fst (body resp)
        = ["text"%string; "language"%string; "detectedLanguage"%string]).
Proof.
  destruct (FormData_get (formData request) "transcript") as [[|c tl]|] eqn:H.
  - rewrite (action_rejects _ _ predict request w (or_intror H)).
    eexists _, _. split; [reflexivity|]. cbn [status].
    split; [right; left; reflexivity|]. split; [reflexivity|discriminate].
  - rewrite (action_responds _ _ predict request w (c :: tl) H)
      by discriminate.
    destruct (moduleFailure w) as [e|] eqn:Hm.
    + rewrite (respond_broken _ _ predict _ _ _ Hm).
      eexists _, _. split; [reflexivity|]. cbn [status].
      split; [right; right; reflexivity|]. split; [reflexivity|discriminate].
    + destruct (respond_loaded _ _ predict (c :: tl) w Hm)
        as (reply & w' & _ & Hr).
      rewrite Hr. eexists _, _. split; [reflexivity|]. cbn [status].
      split; [left; reflexivity|]. split; [reflexivity|].
      intros _. reflexivity.
  - rewrite (action_rejects _ _ predict request w (or_introl H)).
    eexists _, _. split; [reflexivity|]. cbn [status].
    split; [right; left; reflexivity|]. split; [reflexivity|discriminate].
Qed.


End CallsAndLogs.

(** ** The page *)

Section PageProperties.

Import Page.

Lemma locale_isLocale (v : option jsstring) : isLocale (locale v).
Proof.
  unfold locale. destruct (isEn v); [right|left]; reflexivity.
Qed.

Lemma isEn_locale (l : jsstring) : isLocale l -> isEn (Some l) = false.
Proof.
  intros [-> | ->]; vm_compute; reflexivity.
Qed.

(** What holds in every state the page reaches. *)
Lemma reachable_invariant (s : State) (outputs : list Output) :
  reachable s outputs ->
  isLocale (currentLanguage s)
  /\ (forall r, In (StartRecognition r) outputs -> isLocale (Recognition.lang r))
  /\ (forall m, In m (conversation s) -> Message.isUser m = true ->
        exists l, Message.language m = Some l /\ isLocale l).
Proof.
  induction 1 as [|s outputs e Hr (IHl & IHr & IHm) He].
  - split; [left; reflexivity|]. split; intros ? [].
  - destruct e as [supported| | |r transcript confidence|error|data];
      cbn [handle].
    + unfold startSpeechRecognition. destruct supported; cbn [fst snd].
      * split; [exact IHl|]. split; [|exact IHm].
        intros r Hin. apply in_app_or in Hin. destruct Hin as [Hin|Hin].
        -- exact (IHr r Hin).
        -- destruct Hin as [Hin|[]]. injection Hin as <-. exact IHl.
      * split; [exact IHl|]. split; [|exact IHm].
        intros r Hin. apply in_app_or in Hin. destruct Hin as [Hin|Hin].
        -- exact (IHr r Hin).
        -- destruct Hin as [Hin|[]]. discriminate Hin.
    + unfold toggleLanguage. cbn [fst snd currentLanguage conversation].
      rewrite app_nil_r. split; [|split; assumption].
      destruct (strictEq (currentLanguage s) (js "de-DE")); [right|left];
        reflexivity.
    + unfold onstart. cbn [fst snd currentLanguage conversation].
      rewrite app_nil_r. split; [exact IHl|]. split; assumption.
    + unfold onresult. cbn [fst snd currentLanguage conversation].
      cbn [enabled] in He.
      split; [exact IHl|]. split.
      * intros r0 Hin. apply in_app_or in Hin. destruct Hin as [Hin|Hin].
        -- exact (IHr r0 Hin).
        -- destruct Hin as [Hin|[Hin|[]]]; discriminate Hin.
      * intros m Hin Hu. apply in_app_or in Hin. destruct Hin as [Hin|Hin].
        -- exact (IHm m Hin Hu).
        -- destruct Hin as [<-|[]]. cbn [Message.language].
           exists (Recognition.lang r). split; [reflexivity|exact (IHr r He)].
    + unfold onerror. cbn [fst snd currentLanguage conversation].
      split; [exact IHl|]. split.
      * intros r0 Hin. apply in_app_or in Hin. destruct Hin as [Hin|Hin].
        -- exact (IHr r0 Hin).
        -- destruct Hin as [Hin|[]]. discriminate Hin.
      * exact IHm.
    + unfold effect. destruct data as [d|].
      2:{ cbn [fst snd]. rewrite app_nil_r. split; [exact IHl|]. split; assumption. }
      destruct (negb (truthy (property d "error"))).
      2:{ cbn [fst snd]. rewrite app_nil_r. split; [exact IHl|]. split; assumption. }
      cbn [fst snd currentLanguage conversation]. split; [|split].
      * destruct (truthy (property d "detectedLanguage"));
          [apply locale_isLocale|exact IHl].
      * intros r0 Hin. apply in_app_or in Hin. destruct Hin as [Hin|Hin].
        -- exact (IHr r0 Hin).
        -- destruct Hin as [Hin|[]]. discriminate Hin.
      * intros m Hin Hu. apply in_app_or in Hin. destruct Hin as [Hin|Hin].
        -- exact (IHm m Hin Hu).
        -- destruct Hin as [<-|[]]. discriminate Hu.
Qed.

(** X10: in every state the page reaches, [currentLanguage] is ['de-DE'] or
    ['en-US'], and every recognition that was started listens in one of the
    two. *)
Theorem current_language_is_a_locale (s : State) (outputs : list Output) :
  reachable s outputs ->
  (currentLanguage s = js "de-DE" \/ currentLanguage s = js "en-US")
  /\ forall r, In (StartRecognition r) outputs ->
       Recognition.lang r = js "de-DE" \/ Recognition.lang r = js "en-US".
Proof.
  intros H. destruct (reachable_invariant s outputs H) as (Hl & Hr & _).
  split; [exact Hl|exact Hr].
Qed.

(** X11: in every state the page reaches, the bubble of a message of the
    user shows the German flag, whatever language the recognition listened
    in: the message holds a locale, and the flag is the American one only
    for ['en']. *)
Theorem user_bubbles_show_german_flag (s : State) (outputs : list Output) :
  reachable s outputs ->
  forall m, In m (conversation s) -> Message.isUser m = true ->
    flag m = js "🇩🇪".
Proof.
  intros H m Hin Hu.
  destruct (reachable_invariant s outputs H) as (_ & _ & Hm).
  destruct (Hm m Hin Hu) as (l & Hl & Hloc).
  unfold flag. rewrite Hl, (isEn_locale l Hloc). reflexivity.
Qed.

(** X12: no event removes or changes a message: the conversation after an
    event is the one before it with at most one message added. *)
Theorem conversation_only_grows (e : event) (s : State) :
  exists added,
    conversation (fst (handle e s)) = conversation s ++ added
    /\ (List.length added <= 1)%nat.
Proof.
  destruct e as [supported| | |r transcript confidence|error|data];
    cbn [handle].
  - exists []. rewrite app_nil_r. unfold startSpeechRecognition.
    destruct supported; split; (reflexivity || (cbn; lia)).
  - exists []. rewrite app_nil_r. split; [reflexivity|cbn; lia].
  - exists []. rewrite app_nil_r. split; [reflexivity|cbn; lia].
  - eexists [_]. split; [reflexivity|cbn; lia].
  - exists []. rewrite app_nil_r. split; [reflexivity|cbn; lia].
  - unfold effect. destruct data as [d|].
    2:{ exists []. rewrite app_nil_r. split; [reflexivity|cbn; lia]. }
    destruct (negb (truthy (property d "error"))).
    + eexists [_]. split; [reflexivity|cbn; lia].
    + exists []. rewrite app_nil_r. split; [reflexivity|cbn; lia].
Qed.

(** X13: once the page is processing, only a response without an [error]
    field ends it: no other event sets [isProcessing] back to false. *)
Theorem only_a_success_ends_processing (e : event) (s : State) :
  isProcessing s = true ->
  isProcessing (fst (handle e s)) = false ->
  exists d, e = FetcherData (Some d) /\ truthy (property d "error") = false.
Proof.
  intros Hp Hf.
  destruct e as [supported| | |r transcript confidence|error|data];
    cbn [handle] in Hf.
  - unfold startSpeechRecognition in Hf. destruct supported; cbn [fst] in Hf;
      congruence.
  - cbn in Hf. congruence.
  - cbn in Hf. congruence.
  - cbn in Hf. discriminate.
  - cbn in Hf. congruence.
  - unfold effect in Hf. destruct data as [d|]; [|cbn [fst] in Hf; congruence].
    destruct (truthy (property d "error")) eqn:E; cbn [negb fst] in Hf.
    + congruence.
    + exists d. split; [reflexivity|exact E].
Qed.

(** X14: [toggleLanguage] turns ['de-DE'] into ['en-US'] and every other
    value into ['de-DE']; on one of the two locales, toggling twice gives
    the state back. *)
Theorem toggle_twice (s : State) :
  isLocale (currentLanguage s) ->
  fst (toggleLanguage (fst (toggleLanguage s))) = s
  /\ currentLanguage (fst (toggleLanguage s)) <> currentLanguage s.
Proof.
  destruct s as [rec proc conv lang]. cbn [currentLanguage].
  intros [-> | ->]; (split; [vm_compute; reflexivity|vm_compute; discriminate]).
Qed.

End PageProperties.

(** ** The page and the action together

    The page submits the form that [onresult] builds; the body of the
    response of the action is the [fetcher.data] that the effect reads. *)

Section Exchange.

Import Page.

Variables Err Chain : Type.
Variable predict : jsstring -> Chain -> completion Err jsstring * Chain.



Lemma submitted_request (r : Recognition.t) (transcript confidence : jsstring)
    (s : State) (req : Request) :
  In (Submit req) (snd (onresult r transcript confidence s)) ->
  req = mkRequest [("transcript"%string, transcript)].
Proof.
  cbn [onresult snd In]. intros [H|[H|[]]]; [discriminate H|].
  injection H as <-. reflexivity.
Qed.


(** X16: a recognised transcript that is empty, or a module that did not
    load: the request the page submits is answered with an [error] body,
    the effect on it changes nothing and queues nothing, and the page is
    left processing with the microphone button disabled. *)
Theorem exchange_fails (r : Recognition.t) (transcript confidence : jsstring)
    (s : State) (w : World Err Chain) (req : Request) :
  transcript = [] \/ moduleFailure w <> None ->
  In (Submit req) (snd (onresult r transcript confidence s)) ->
  exists resp w',
    action predict req w = (Normal resp, w')
    /\ hasField "error" resp = true
    /\ effect (Some (body resp)) (fst (onresult r transcript confidence s))
       = (fst (onresult r transcript confidence s), [])
    /\ isProcessing (fst (onresult r transcript confidence s)) = true
    /\ disabled (fst (onresult r transcript confidence s)) = true.
Proof.
  intros H Hin. apply submitted_request in Hin. subst req.
  assert (exists resp w',
             action predict (mkRequest [("transcript"%string, transcript)]) w
             = (Normal resp, w')
             /\ exists message, body resp = [("error"%string, js message)]
                                /\ js message <> [])
    as (resp & w' & Hrun & message & Hb & Hne).
  { destruct transcript as [|c tl].
    - eexists _, _. split; [reflexivity|].
      exists "No transcript provided"%string.
      split; [reflexivity|vm_compute; discriminate].
    - destruct H as [H|H]; [discriminate H|].
      destruct (moduleFailure w) as [e|] eqn:Hm; [|contradiction].
      pose proof (action_responds Err Chain predict
                    (mkRequest [("transcript"%string, c :: tl)]) w (c :: tl)
                    eq_refl ltac:(discriminate)) as Ha.
      rewrite (respond_broken Err Chain predict _ _ _ Hm) in Ha.
      eexists _, _. split; [exact Ha|].
      exists "Processing failed"%string.
      split; [reflexivity|vm_compute; discriminate]. }
  exists resp, w'. split; [exact Hrun|]. split.
  { unfold hasField. rewrite Hb. reflexivity. }
  split.
  { unfold effect. rewrite Hb.
    change (property [("error"%string, js message)] "error")
      with (Some (js message)).
    destruct (js message) as [|c tl]; [contradiction|reflexivity]. }
  split; reflexivity.
Qed.

End Exchange.

(** The sample run is a run of the page. *)
Lemma sample_run_reachable :
  Page.reachable (fst (Page.run Page.sampleEvents))
                 (snd (Page.run Page.sampleEvents)).
Proof.
  unfold Page.run, Page.sampleEvents. cbn [fold_left].
  repeat match goal with
         | |- Page.reachable (fst (Page.after ?st ?e)) _ =>
             change (Page.reachable (fst (Page.handle e (fst st)))
                       (snd st ++ snd (Page.handle e (fst st))));
             apply Page.reach_step
         end.
  - exact Page.reach_initial.
  - exact I.
  - vm_compute. reflexivity.
  - exact I.
  - vm_compute. left. reflexivity.
Qed.

(** In the sample run the recognition listened in ['en-US'] and the message
    of the user carries that locale. *)
Example sample_run_state :
  fst (Page.run Page.sampleEvents)
  = Page.mkPage false true
      [Page.Message.mk (Some (js "I will go")) true (Some (js "en-US"))]
      (js "en-US").
Proof. vm_compute. reflexivity. Qed.

Lemma current_language_is_a_locale_witness :
  Page.reachable (fst (Page.run Page.sampleEvents))
                 (snd (Page.run Page.sampleEvents))
  /\ (Page.currentLanguage (fst (Page.run Page.sampleEvents)) = js "de-DE"
      \/ Page.currentLanguage (fst (Page.run Page.sampleEvents)) = js "en-US")
  /\ forall r, In (Page.StartRecognition r) (snd (Page.run Page.sampleEvents)) ->
       Page.Recognition.lang r = js "de-DE"
       \/ Page.Recognition.lang r = js "en-US".
Proof.
  exact (conj sample_run_reachable
           (current_language_is_a_locale _ _ sample_run_reachable)).
Defined.

Lemma user_bubbles_show_german_flag_witness :
  Page.reachable (fst (Page.run Page.sampleEvents))
                 (snd (Page.run Page.sampleEvents))
  /\ forall m, In m (Page.conversation (fst (Page.run Page.sampleEvents))) ->
       Page.Message.isUser m = true -> Page.flag m = js "🇩🇪".
Proof.
  exact (conj sample_run_reachable
           (user_bubbles_show_german_flag _ _ sample_run_reachable)).
Defined.

Lemma only_a_success_ends_processing_witness :
  Page.isProcessing (fst (Page.run Page.sampleEvents)) = true
  /\ Page.isProcessing
       (fst (Page.handle (Page.FetcherData (Some [("text"%string, js "Gut!")]))
                         (fst (Page.run Page.sampleEvents)))) = false
  /\ exists d,
      Page.FetcherData (Some [("text"%string, js "Gut!")])
      = Page.FetcherData (Some d)
      /\ Page.truthy (Page.property d "error") = false.
Proof.
  assert (H1 : Page.isProcessing (fst (Page.run Page.sampleEvents)) = true)
    by (vm_compute; reflexivity).
  assert (H2 : Page.isProcessing
       (fst (Page.handle (Page.FetcherData (Some [("text"%string, js "Gut!")]))
                         (fst (Page.run Page.sampleEvents)))) = false)
    by (vm_compute; reflexivity).
  exact (conj H1 (conj H2 (only_a_success_ends_processing _ _ H1 H2))).
Defined.

Lemma toggle_twice_witness :
  Page.isLocale (Page.currentLanguage Page.initial)
  /\ fst (Page.toggleLanguage (fst (Page.toggleLanguage Page.initial)))
     = Page.initial
  /\ Page.currentLanguage (fst (Page.toggleLanguage Page.initial))
     <> Page.currentLanguage Page.initial.
Proof.
  assert (H : Page.isLocale (Page.currentLanguage Page.initial))
    by (left; reflexivity).
  exact (conj H (toggle_twice Page.initial H)).
Defined.


Lemma exchange_fails_witness :
  (js "I will go" = [] \/ moduleFailure Samples.brokenModuleWorld <> None)
  /\ In (Page.Submit Samples.goRequest)
        (snd (Page.onresult Page.englishRecognition (js "I will go")
                            (js "0.93") Page.initial))
  /\ exists resp w',
      action Samples.parrotProvider Samples.goRequest Samples.brokenModuleWorld
        = (Normal resp, w')
      /\ hasField "error" resp = true
      /\ Page.effect (Some (body resp))
           (fst (Page.onresult Page.englishRecognition (js "I will go")
                               (js "0.93") Page.initial))
         = (fst (Page.onresult Page.englishRecognition (js "I will go")
                               (js "0.93") Page.initial), [])
      /\ Page.isProcessing
           (fst (Page.onresult Page.englishRecognition (js "I will go")
                               (js "0.93") Page.initial)) = true
      /\ Page.disabled
           (fst (Page.onresult Page.englishRecognition (js "I will go")
                               (js "0.93") Page.initial)) = true.
Proof.
  assert (H1 : js "I will go" = []
               \/ moduleFailure Samples.brokenModuleWorld <> None)
    by (right; vm_compute; discriminate).
  assert (H3 : In (Page.Submit Samples.goRequest)
        (snd (Page.onresult Page.englishRecognition (js "I will go")
                            (js "0.93") Page.initial)))
    by (right; left; reflexivity).
  exact (conj H1 (conj H3
           (exchange_fails string (list jsstring) Samples.parrotProvider
              Page.englishRecognition (js "I will go") (js "0.93")
              Page.initial Samples.brokenModuleWorld Samples.goRequest H1 H3))).
Defined.
